(** * liblog: a shallow embedding of github.com/wimark/log (log.go)

    Go strings are byte sequences: they are modelled as [string], whose
    characters are the 256 byte values.  Go [int] values are modelled as [Z];
    every integer the logger computes is a string length, an index into a
    string or the value [strconv.Atoi] returned, so no arithmetic wraps.

    The parts of the Go standard library that log.go calls
    ([strings.Index], [strconv.Atoi], [fmt.Sprintf] without operands,
    [filepath.Base], [utf8.DecodeRuneInString], [encoding/json]'s string
    encoding and decoding) are embedded next to the logger itself. *)

From Stdlib Require Import ZArith Lia List Bool Ascii String.
Import ListNotations.

Local Open Scope string_scope.
Local Open Scope Z_scope.

(** ** Bytes and strings *)

Definition byte_val (c : ascii) : Z := Z.of_N (N_of_ascii c).
Definition byte_of (z : Z) : ascii := ascii_of_N (Z.to_N (z mod 256)).

Definition ch (z : Z) : string := String (byte_of z) EmptyString.

(** The characters the source names. *)
Definition newline : string := ch 10.
Definition quote : string := ch 34.

(** [len(s)] *)
Definition len (s : string) : Z := Z.of_nat (String.length s).

Fixpoint take (n : nat) (s : string) : string :=
  match n, s with
  | S k, String c r => String c (take k r)
  | _, _ => EmptyString
  end.

Fixpoint drop (n : nat) (s : string) : string :=
  match n, s with
  | S k, String _ r => drop k r
  | _, _ => s
  end.

(** What a Go run-time panic or a blocked goroutine leaves behind. *)
Inductive panic : Type :=
| SliceBounds        (* slice bounds out of range *)
| SendOnClosed       (* send on closed channel *)
| CloseOfClosed.     (* close of closed channel *)

(** Result of a computation that may panic; [OutOfFuel] says that the loop
    budget of the embedding ran out, which is no Go behaviour. *)
Inductive result (A : Type) : Type :=
| Ok (a : A)
| Panic (why : panic)
| OutOfFuel.
Arguments Ok {A} a.
Arguments Panic {A} why.
Arguments OutOfFuel {A}.

(** [s[:n]] and [s[n:]]: Go panics when the bound is outside [0, len(s)]. *)
Definition slice_to (s : string) (n : Z) : result string :=
  if (0 <=? n) && (n <=? len s) then Ok (take (Z.to_nat n) s)
  else Panic SliceBounds.

Definition slice_from (s : string) (n : Z) : result string :=
  if (0 <=? n) && (n <=? len s) then Ok (drop (Z.to_nat n) s)
  else Panic SliceBounds.

Module strings.

(** [strings.Index(s, substr)]: the index of the first instance of
    [substr] in [s], or -1. *)
Fixpoint Index (s substr : string) : Z :=
  if String.prefix substr s then 0
  else match s with
       | EmptyString => -1
       | String _ r =>
           let i := Index r substr in
           if i =? -1 then -1 else i + 1
       end.


Definition Contains (s substr : string) : bool := negb (Index s substr =? -1).

End strings.

(** ** unicode/utf8 *)
Module utf8.

Definition RuneError : Z := 65533.   (* U+FFFD *)
Definition RuneSelf : Z := 128.
Definition MaxRune : Z := 1114111.   (* U+10FFFF *)

(** Continuation byte, [locb <= b <= hicb]. *)
Definition cont (b : Z) : bool := (128 <=? b) && (b <=? 191).

(** The [first] table: for a leading byte, the size of the sequence and the
    range accepted for the second byte; [None] for the bytes marked [xx]
    (0x80-0xC1 and 0xF5-0xFF).  ASCII is handled before the table. *)
Definition first (b : Z) : option (nat * Z * Z) :=
  if (194 <=? b) && (b <=? 223) then Some (2%nat, 128, 191)
  else if b =? 224 then Some (3%nat, 160, 191)
  else if (225 <=? b) && (b <=? 236) then Some (3%nat, 128, 191)
  else if b =? 237 then Some (3%nat, 128, 159)
  else if (238 <=? b) && (b <=? 239) then Some (3%nat, 128, 191)
  else if b =? 240 then Some (4%nat, 144, 191)
  else if (241 <=? b) && (b <=? 243) then Some (4%nat, 128, 191)
  else if b =? 244 then Some (4%nat, 128, 143)
  else None.

(** [utf8.DecodeRuneInString]: the rune at the head of [s] and its width
    in bytes; [(RuneError, 0)] on the empty string and [(RuneError, 1)] on
    an invalid or truncated encoding. *)
Definition DecodeRuneInString (s : string) : Z * nat :=
  match s with
  | EmptyString => (RuneError, 0%nat)
  | String c0 r0 =>
      let s0 := byte_val c0 in
      if s0 <? RuneSelf then (s0, 1%nat)
      else
        match first s0 with
        | None => (RuneError, 1%nat)
        | Some (sz, lo, hi) =>
            match r0 with
            | EmptyString => (RuneError, 1%nat)
            | String c1 r1 =>
                let s1 := byte_val c1 in
                if (s1 <? lo) || (hi <? s1) then (RuneError, 1%nat)
                else if (sz <=? 2)%nat then
                  (Z.lor (Z.shiftl (Z.land s0 31) 6) (Z.land s1 63), 2%nat)
                else
                  match r1 with
                  | EmptyString => (RuneError, 1%nat)
                  | String c2 r2 =>
                      let s2 := byte_val c2 in
                      if negb (cont s2) then (RuneError, 1%nat)
                      else if (sz <=? 3)%nat then
                        (Z.lor (Z.shiftl (Z.land s0 15) 12)
                           (Z.lor (Z.shiftl (Z.land s1 63) 6) (Z.land s2 63)),
                         3%nat)
                      else
                        match r2 with
                        | EmptyString => (RuneError, 1%nat)
                        | String c3 _ =>
                            let s3 := byte_val c3 in
                            if negb (cont s3) then (RuneError, 1%nat)
                            else
                              (Z.lor (Z.shiftl (Z.land s0 7) 18)
                                 (Z.lor (Z.shiftl (Z.land s1 63) 12)
                                    (Z.lor (Z.shiftl (Z.land s2 63) 6)
                                       (Z.land s3 63))),
                               4%nat)
                        end
                  end
            end
        end
  end.

(** [utf8.AppendRune]: the UTF-8 encoding of a rune; surrogates and values
    out of range are encoded as U+FFFD. *)
Definition EncodeRune (r : Z) : string :=
  if (0 <=? r) && (r <=? 127) then ch r
  else if (0 <=? r) && (r <=? 2047) then
    ch (Z.lor 192 (Z.shiftr r 6)) ++ ch (Z.lor 128 (Z.land r 63))
  else if (r <? 0) || (MaxRune <? r) || ((55296 <=? r) && (r <=? 57343)) then
    ch 239 ++ ch 191 ++ ch 189
  else if r <=? 65535 then
    ch (Z.lor 224 (Z.shiftr r 12))
      ++ ch (Z.lor 128 (Z.land (Z.shiftr r 6) 63))
      ++ ch (Z.lor 128 (Z.land r 63))
  else
    ch (Z.lor 240 (Z.shiftr r 18))
      ++ ch (Z.lor 128 (Z.land (Z.shiftr r 12) 63))
      ++ ch (Z.lor 128 (Z.land (Z.shiftr r 6) 63))
      ++ ch (Z.lor 128 (Z.land r 63)).

(** [utf8.ValidString], with the scan budget [fuel] (one unit per rune). *)
Fixpoint Valid (fuel : nat) (s : string) {struct fuel} : bool :=
  match fuel, s with
  | _, EmptyString => true
  | O, _ => false
  | S f, _ =>
      let '(r, size) := DecodeRuneInString s in
      if (r =? RuneError) && (size =? 1)%nat then false
      else Valid f (drop size s)
  end.

Definition ValidString (s : string) : bool := Valid (String.length s) s.

End utf8.

(** ** strconv *)
Module strconv.

Inductive NumError : Type := ErrSyntax | ErrRange.

Definition digit (c : ascii) : option Z :=
  let b := byte_val c in
  if (48 <=? b) && (b <=? 57) then Some (b - 48) else None.

Definition maxUint64 : Z := 2 ^ 64 - 1.

(** The digit loop of [Atoi]'s fast path (fewer than 19 bytes). *)
Fixpoint fast_digits (s : string) (n : Z) : option Z :=
  match s with
  | EmptyString => Some n
  | String c r =>
      match digit c with
      | None => None
      | Some d => fast_digits r (n * 10 + d)
      end
  end.

(** The digit loop of [ParseUint] in base 10 on 64 bits.  A byte that is
    no decimal digit is a syntax error; once the value no longer fits the
    loop returns the range error without reading further. *)
Fixpoint uint_digits (s : string) (n : Z) : Z * option NumError :=
  match s with
  | EmptyString => (n, None)
  | String c r =>
      match digit c with
      | None => (0, Some ErrSyntax)
      | Some d =>
          if n >=? maxUint64 / 10 + 1 then (maxUint64, Some ErrRange)
          else
            let n1 := n * 10 + d in
            if n1 >? maxUint64 then (maxUint64, Some ErrRange)
            else uint_digits r n1
      end
  end.

Definition ParseUint (s : string) : Z * option NumError :=
  match s with
  | EmptyString => (0, Some ErrSyntax)
  | _ => uint_digits s 0
  end.

Definition ParseInt (s : string) : Z * option NumError :=
  match s with
  | EmptyString => (0, Some ErrSyntax)
  | String c r =>
      let neg := Ascii.eqb c "-" in
      let s' := if Ascii.eqb c "+" || neg then r else s in
      match ParseUint s' with
      | (_, Some ErrSyntax) => (0, Some ErrSyntax)
      | (un, _) =>
          let cutoff := 2 ^ 63 in
          if negb neg && (un >=? cutoff) then (cutoff - 1, Some ErrRange)
          else if neg && (un >? cutoff) then (- cutoff, Some ErrRange)
          else (if neg then - un else un, None)
      end
  end.

(** [strconv.Atoi] on a 64-bit platform. *)
Definition Atoi (s : string) : Z * option NumError :=
  let sLen := len s in
  if (0 <? sLen) && (sLen <? 19) then
    match s with
    | EmptyString => (0, Some ErrSyntax)
    | String c r =>
        let signed := Ascii.eqb c "-" || Ascii.eqb c "+" in
        let s' := if signed then r else s in
        if signed && (len s' <? 1) then (0, Some ErrSyntax)
        else
          match fast_digits s' 0 with
          | None => (0, Some ErrSyntax)
          | Some n => (if Ascii.eqb c "-" then - n else n, None)
          end
    end
  else ParseInt s.

Fixpoint utoa (fuel : nat) (n : Z) (acc : string) : string :=
  match fuel with
  | O => acc
  | S f =>
      let acc' := String (byte_of (48 + n mod 10)) acc in
      if n <? 10 then acc' else utoa f (n / 10) acc'
  end.

(** [strconv.Itoa]: decimal text of an integer. *)
Definition Itoa (i : Z) : string :=
  if i <? 0 then "-" ++ utoa (S (Z.to_nat (Z.log2 (- i)))) (- i) EmptyString
  else utoa (S (Z.to_nat (Z.log2 i))) i EmptyString.

End strconv.

(** ** path/filepath (Unix) *)
Module filepath.

Definition is_sep (c : ascii) : bool := Ascii.eqb c "/".

Fixpoint trim_right_sep (s : string) : string :=
  match s with
  | EmptyString => EmptyString
  | String c r =>
      match trim_right_sep r with
      | EmptyString => if is_sep c then EmptyString else String c EmptyString
      | r' => String c r'
      end
  end.

Fixpoint last_element (s cur : string) : string :=
  match s with
  | EmptyString => cur
  | String c r =>
      if is_sep c then last_element r EmptyString
      else last_element r (cur ++ String c EmptyString)
  end.

(** [filepath.Base]: the last element of the path, trailing separators
    removed; "." for the empty path, "/" for a path of separators only. *)
Definition Base (path : string) : string :=
  match path with
  | EmptyString => "."
  | _ =>
      match last_element (trim_right_sep path) EmptyString with
      | EmptyString => "/"
      | e => e
      end
  end.

End filepath.

(** ** fmt: [Sprintf] called with a format and no operands *)
Module fmt.

Definition is_flag (c : ascii) : bool :=
  Ascii.eqb c "#" || Ascii.eqb c "0" || Ascii.eqb c "+"
  || Ascii.eqb c "-" || Ascii.eqb c " ".

(** The flag loop; with no operand left its fast path for simple verbs is
    never taken. *)
Fixpoint skip_flags (s : string) : string :=
  match s with
  | String c r => if is_flag c then skip_flags r else s
  | EmptyString => s
  end.

Definition tooLarge (x : Z) : bool := (x >? 1000000) || (x <? -1000000).

(** [parsenum] on the rest of the format: whether a number was read and
    what follows it.  On overflow the scan gives up at the end of the
    format. *)
Fixpoint parsenum (s : string) (num : Z) (isnum : bool) : bool * string :=
  match s with
  | EmptyString => (isnum, s)
  | String c r =>
      match strconv.digit c with
      | None => (isnum, s)
      | Some d =>
          if tooLarge num then (false, EmptyString)
          else parsenum r (num * 10 + d) true
      end
  end.

(** Position of the first closing bracket, counted from the byte after the
    opening one. *)
Fixpoint closing (s : string) : option nat :=
  match s with
  | EmptyString => None
  | String c r =>
      if Ascii.eqb c "]" then Some O
      else match closing r with
           | Some k => Some (S k)
           | None => None
           end
  end.

(** [parseArgNumber] on a format that starts with the opening bracket:
    the width of the index and whether it is well formed. *)
Definition parseArgNumber (format : string) : nat * bool :=
  if (String.length format <? 3)%nat then (1%nat, false)
  else
    match closing (drop 1 format) with
    | None => (1%nat, false)
    | Some k =>
        let '(isnum, rest) := parsenum (take k (drop 1 format)) 0 false in
        match rest with
        | EmptyString => (S (S k), isnum)
        | _ => (S (S k), false)
        end
    end.

(** [argNumber] with no operands: an explicit index is always out of
    range, so it clears [goodArgNum].  Returns the rest of the format,
    [found] and the new [goodArgNum]. *)
Definition argNumber (s : string) (good : bool) : string * bool * bool :=
  match s with
  | String c _ =>
      if Ascii.eqb c "[" then
        let '(wid, ok) := parseArgNumber s in (drop wid s, ok, false)
      else (s, false, good)
  | EmptyString => (s, false, good)
  end.

Definition starts_with (c : ascii) (s : string) : bool :=
  match s with
  | String d _ => Ascii.eqb c d
  | EmptyString => false
  end.

(** One verb of [doPrintf], after the percent sign: the text written and
    the rest of the format ([None] after the [break] of a missing verb). *)
Definition directive (s : string) : string * option string :=
  let s := skip_flags s in
  let '(s, afterIndex, good) := argNumber s true in
  (* width *)
  let '(out, s, afterIndex, good) :=
    if starts_with "*" s then ("%!(BADWIDTH)", drop 1 s, false, good)
    else
      let '(present, s') := parsenum s 0 false in
      (EmptyString, s', afterIndex, if afterIndex && present then false else good) in
  (* precision *)
  let '(out, s, afterIndex, good) :=
    if starts_with "." s then
      let good := if afterIndex then false else good in
      let '(s, afterIndex, good) := argNumber (drop 1 s) good in
      if starts_with "*" s then (out ++ "%!(BADPREC)", drop 1 s, false, good)
      else
        let '(_, s') := parsenum s 0 false in (out, s', afterIndex, good)
    else (out, s, afterIndex, good) in
  let '(s, afterIndex, good) :=
    if afterIndex then (s, afterIndex, good) else argNumber s good in
  match s with
  | EmptyString => (out ++ "%!(NOVERB)", None)
  | String c r =>
      let '(verb, size) :=
        if byte_val c <? utf8.RuneSelf then (byte_val c, 1%nat)
        else utf8.DecodeRuneInString s in
      let rest := drop size s in
      if verb =? 37 then (out ++ "%", Some rest)
      else if negb good then
        (out ++ "%!" ++ utf8.EncodeRune verb ++ "(BADINDEX)", Some rest)
      else
        (out ++ "%!" ++ utf8.EncodeRune verb ++ "(MISSING)", Some rest)
  end.

(** [doPrintf] with no operands.  [skip] counts the bytes of the format
    that the previous verb has already consumed. *)
Fixpoint doPrintf (skip : nat) (format : string) : string :=
  match format with
  | EmptyString => EmptyString
  | String c rest =>
      match skip with
      | S k => doPrintf k rest
      | O =>
          if Ascii.eqb c "%" then
            match directive rest with
            | (out, None) => out
            | (out, Some rest') =>
                out ++ doPrintf (String.length rest - String.length rest') rest
            end
          else String c (doPrintf 0 rest)
      end
  end.

Section Operands.
(** Operands are Go values of any type; formatting them is left to the
    parameter [withOperands]. *)
Variable value : Type.
Variable withOperands : string -> list value -> string.

(** [fmt.Sprintf(format, a...)] *)
Definition Sprintf (format : string) (a : list value) : string :=
  match a with
  | [] => doPrintf 0 format
  | _ => withOperands format a
  end.
End Operands.

End fmt.

(** ** encoding/json: strings *)
Module json.

Definition backslash : string := ch 92.

Definition hex (d : Z) : string :=
  match String.get (Z.to_nat d) "0123456789abcdef" with
  | Some c => String c EmptyString
  | None => EmptyString
  end.

(** [htmlSafeSet]: the ASCII bytes that [Marshal] copies unescaped. *)
Definition htmlSafe (b : Z) : bool :=
  (32 <=? b) && (b <? 128)
  && negb ((b =? 34) || (b =? 92) || (b =? 60) || (b =? 62) || (b =? 38)).

(** The escape written for an ASCII byte outside [htmlSafeSet]. *)
Definition escape (b : Z) : string :=
  if (b =? 92) || (b =? 34) then backslash ++ ch b
  else if b =? 10 then backslash ++ "n"
  else if b =? 13 then backslash ++ "r"
  else if b =? 9 then backslash ++ "t"
  else backslash ++ "u00" ++ hex (Z.shiftr b 4) ++ hex (Z.land b 15).

(** The body of [appendString] with HTML escaping on, as [Marshal] calls
    it; [fuel] bounds the number of runes read. *)
Fixpoint encode (fuel : nat) (src : string) {struct fuel} : string :=
  match fuel, src with
  | _, EmptyString => EmptyString
  | O, _ => EmptyString
  | S f, String c rest =>
      let b := byte_val c in
      if b <? utf8.RuneSelf then
        (if htmlSafe b then String c EmptyString else escape b) ++ encode f rest
      else
        let '(r, size) := utf8.DecodeRuneInString src in
        if (r =? utf8.RuneError) && (size =? 1)%nat then
          backslash ++ "ufffd" ++ encode f rest
        else if (r =? 8232) || (r =? 8233) then
          backslash ++ "u202" ++ hex (Z.land r 15) ++ encode f (drop size src)
        else take size src ++ encode f (drop size src)
  end.

Definition appendString (src : string) : string :=
  quote ++ encode (String.length src) src ++ quote.

(** *** Decoding a string literal *)

Definition hexval (c : ascii) : option Z :=
  let b := byte_val c in
  if (48 <=? b) && (b <=? 57) then Some (b - 48)
  else if (97 <=? b) && (b <=? 102) then Some (b - 97 + 10)
  else if (65 <=? b) && (b <=? 70) then Some (b - 65 + 10)
  else None.

(** [getu4] on the text after the backslash and the letter u: the value of
    four hexadecimal digits and what follows them. *)
Definition getu4 (s : string) : option (Z * string) :=
  match s with
  | String c1 (String c2 (String c3 (String c4 r))) =>
      match hexval c1, hexval c2, hexval c3, hexval c4 with
      | Some a, Some b, Some c, Some d =>
          Some (((a * 16 + b) * 16 + c) * 16 + d, r)
      | _, _, _, _ => None
      end
  | _ => None
  end.

Definition IsSurrogate (r : Z) : bool := (55296 <=? r) && (r <? 57344).

(** [utf16.DecodeRune] *)
Definition utf16_DecodeRune (r1 r2 : Z) : Z :=
  if (55296 <=? r1) && (r1 <? 56320) && (56320 <=? r2) && (r2 <? 57344)
  then Z.lor (Z.shiftl (r1 - 55296) 10) (r2 - 56320) + 65536
  else utf8.RuneError.

(** A unicode escape, read after the backslash and the letter u. *)
Definition unicode_escape (s : string) : option (string * string) :=
  match getu4 s with
  | None => None
  | Some (rr, r) =>
      if IsSurrogate rr then
        let second :=
          match r with
          | String e1 (String e2 r') =>
              if (byte_val e1 =? 92) && (byte_val e2 =? 117) then getu4 r'
              else None
          | _ => None
          end in
        match second with
        | Some (rr1, r'') =>
            let dec := utf16_DecodeRune rr rr1 in
            if dec =? utf8.RuneError
            then Some (utf8.EncodeRune utf8.RuneError, r)
            else Some (utf8.EncodeRune dec, r'')
        | None => Some (utf8.EncodeRune utf8.RuneError, r)
        end
      else Some (utf8.EncodeRune rr, r)
  end.

(** The text of a string literal, read after its opening quote, and what
    follows the closing quote: the scanner and [unquote] of the decoder in
    one pass.  Invalid UTF-8 is coerced to U+FFFD. *)
Fixpoint unquote (fuel : nat) (s : string) {struct fuel} : option (string * string) :=
  match fuel with
  | O => None
  | S f =>
      match s with
      | EmptyString => None
      | String c r =>
          let b := byte_val c in
          if b =? 34 then Some (EmptyString, r)
          else if b =? 92 then
            match r with
            | EmptyString => None
            | String e r' =>
                let eb := byte_val e in
                let plain (x : Z) :=
                  match unquote f r' with
                  | Some (t, k) => Some (ch x ++ t, k)
                  | None => None
                  end in
                if (eb =? 34) || (eb =? 92) || (eb =? 47) then plain eb
                else if eb =? 98 then plain 8
                else if eb =? 102 then plain 12
                else if eb =? 110 then plain 10
                else if eb =? 114 then plain 13
                else if eb =? 116 then plain 9
                else if eb =? 117 then
                  match unicode_escape r' with
                  | None => None
                  | Some (t0, k0) =>
                      match unquote f k0 with
                      | Some (t, k) => Some (t0 ++ t, k)
                      | None => None
                      end
                  end
                else None
            end
          else if b <? 32 then None
          else if b <? utf8.RuneSelf then
            match unquote f r with
            | Some (t, k) => Some (String c t, k)
            | None => None
            end
          else
            let '(rr, size) := utf8.DecodeRuneInString s in
            match unquote f (drop size s) with
            | Some (t, k) => Some (utf8.EncodeRune rr ++ t, k)
            | None => None
            end
      end
  end.

(** *** Decoding one line: a flat object of strings and integers *)

Inductive value : Type :=
| Str (s : string)
| Num (text : string).

Definition number_byte (c : ascii) : bool :=
  let b := byte_val c in ((48 <=? b) && (b <=? 57)) || (b =? 45).

Fixpoint number_span (s : string) : string * string :=
  match s with
  | String c r =>
      if number_byte c then let '(n, k) := number_span r in (String c n, k)
      else (EmptyString, s)
  | EmptyString => (EmptyString, s)
  end.

Definition decode_value (fuel : nat) (s : string) : option (value * string) :=
  match s with
  | String c r =>
      if byte_val c =? 34 then
        match unquote fuel r with
        | Some (t, k) => Some (Str t, k)
        | None => None
        end
      else
        match number_span s with
        | (EmptyString, _) => None
        | (n, k) => Some (Num n, k)
        end
  | EmptyString => None
  end.

(** The members of an object, read after the opening brace. *)
Fixpoint members (fuel : nat) (s : string) {struct fuel}
  : option (list (string * value)) :=
  match fuel with
  | O => None
  | S f =>
      match s with
      | String q r =>
          if byte_val q =? 34 then
            match unquote fuel r with
            | Some (key, String colon r1) =>
                if byte_val colon =? 58 then
                  match decode_value fuel r1 with
                  | Some (v, String sep r2) =>
                      if byte_val sep =? 44 then
                        match members f r2 with
                        | Some l => Some ((key, v) :: l)
                        | None => None
                        end
                      else if byte_val sep =? 125 then
                        match r2 with
                        | EmptyString => Some [(key, v)]
                        | _ => None
                        end
                      else None
                  | _ => None
                  end
                else None
            | _ => None
            end
          else None
      | EmptyString => None
      end
  end.

(** [Unmarshal] of a compact flat object. *)
Definition Unmarshal (s : string) : option (list (string * value)) :=
  match s with
  | String c r =>
      if byte_val c =? 123 then members (String.length s) r else None
  | EmptyString => None
  end.

Fixpoint field (name : string) (o : list (string * value)) : option value :=
  match o with
  | [] => None
  | (k, v) :: rest => if String.eqb k name then Some v else field name rest
  end.

(** What [unquote] makes of the bytes of a string: each rune is decoded
    and encoded again, so a byte that is not part of a valid UTF-8
    sequence becomes U+FFFD ([string([]rune(s))]). *)
Fixpoint coerce_runes (fuel : nat) (s : string) {struct fuel} : string :=
  match fuel, s with
  | _, EmptyString => EmptyString
  | O, _ => EmptyString
  | S f, _ =>
      let '(r, size) := utf8.DecodeRuneInString s in
      utf8.EncodeRune r ++ coerce_runes f (drop size s)
  end.

Definition coerce (s : string) : string := coerce_runes (String.length s) s.

End json.

(** ** package liblog *)

(** [type LogLevel int] and the four package levels. *)
Definition LogLevel : Type := Z.
Definition DebugLevel : LogLevel := 0.
Definition InfoLevel : LogLevel := 1.
Definition WarningLevel : LogLevel := 2.
Definition ErrorLevel : LogLevel := 3.

(** [var MaxMsgLength int = 8000]; the package never assigns it. *)
Definition MaxMsgLength : Z := 8000.

(** The text [LogLevel.MarshalJSON] hands to [json.Marshal]. *)
Definition LevelName (l : LogLevel) : string :=
  if l =? DebugLevel then "DEBUG"
  else if l =? InfoLevel then "INFO"
  else if l =? WarningLevel then "WARNING"
  else if l =? ErrorLevel then "ERROR"
  else "LEVEL" ++ strconv.Itoa l.

Definition MarshalJSON (l : LogLevel) : string := json.appendString (LevelName l).

(** [type LogMsg struct].  [Timestamp] holds the RFC 3339 text that
    [time.Time] marshals to; [Module_] is the field [Module]. *)
Module LogMsg.
Record t : Type := mk
  { Timestamp : string;
    Level : LogLevel;
    Message : string;
    Module_ : string;
    ModuleId : string;
    SrcFile : string;
    SrcLine : Z }.

Definition set_Message (m : t) (text : string) : t :=
  mk (Timestamp m) (Level m) text (Module_ m) (ModuleId m) (SrcFile m) (SrcLine m).
End LogMsg.

(** A struct field as [json.Marshal] sees it: its value, by kind. *)
Inductive member : Type :=
| MString (s : string)
| MInt (z : Z)
| MLevel (l : LogLevel).

Definition isEmptyValue (v : member) : bool :=
  match v with
  | MString EmptyString => true
  | MString _ => false
  | MInt z => z =? 0
  | MLevel _ => false
  end.

Definition member_text (v : member) : string :=
  match v with
  | MString s => json.appendString s
  | MInt z => strconv.Itoa z
  | MLevel l => MarshalJSON l
  end.

(** The members of an object after its opening brace, separated by commas,
    and the closing brace. *)
Fixpoint members_text (l : list (string * member)) : string :=
  match l with
  | [] => "}"
  | (name, v) :: rest =>
      json.appendString name ++ ":" ++ member_text v
        ++ match rest with
           | [] => members_text rest
           | _ => "," ++ members_text rest
           end
  end.

(** The fields of [LogMsg] in declaration order: the key of the tag, the
    value, and whether the tag says [omitempty]. *)
Definition fields (m : LogMsg.t) : list (string * member * bool) :=
  [ ("timestamp", MString (LogMsg.Timestamp m), false);
    ("level", MLevel (LogMsg.Level m), false);
    ("message", MString (LogMsg.Message m), false);
    ("service", MString (LogMsg.Module_ m), false);
    ("service_id", MString (LogMsg.ModuleId m), true);
    ("src_file", MString (LogMsg.SrcFile m), true);
    ("src_line", MInt (LogMsg.SrcLine m), true) ].

Definition written (f : string * member * bool) : bool :=
  negb (snd f && isEmptyValue (snd (fst f))).

(** [json.Marshal] of a [LogMsg]. *)
Definition Marshal (m : LogMsg.t) : string :=
  "{" ++ members_text (map fst (filter written (fields m))).

(** The message field of an emitted line, decoded. *)
Definition decoded_message (line : string) : option string :=
  match json.Unmarshal line with
  | Some o =>
      match json.field "message" o with
      | Some (json.Str s) => Some s
      | _ => None
      end
  | None => None
  end.

(** An [io.Writer], and [os.Stdout]: the byte strings written to it so far,
    oldest first.  Errors a writer returns are dropped by the logger. *)
Definition Sink : Type := list string.

(** A channel without buffer. *)
Record chan : Type := { closed : bool }.
Definition make_chan : chan := {| closed := false |}.
Definition close_chan (c : chan) : result chan :=
  if closed c then Panic CloseOfClosed else Ok {| closed := true |}.

(** [type Logger struct] *)
Module Logger.
Record t : Type := mk
  { module : string;
    id : string;
    output : chan;
    Level : LogLevel;
    writers : list Sink;
    stop : chan;
    msgLen : Z }.

Definition set_writers (l : t) (w : list Sink) : t :=
  mk (module l) (id l) (output l) (Level l) w (stop l) (msgLen l).
Definition set_output (l : t) (c : chan) : t :=
  mk (module l) (id l) c (Level l) (writers l) (stop l) (msgLen l).
Definition set_stop (l : t) (c : chan) : t :=
  mk (module l) (id l) (output l) (Level l) (writers l) c (msgLen l).
Definition set_id (l : t) (i : string) : t :=
  mk (module l) i (output l) (Level l) (writers l) (stop l) (msgLen l).
End Logger.

(** How a call ends: it returns, it panics, it is still looping when the
    step budget of the embedding runs out, or it blocks for ever. *)
Inductive outcome (S : Type) : Type :=
| Returned (s : S)
| Panicked (why : panic)
| Running (s : S)
| Blocked.
Arguments Returned {S} s.
Arguments Panicked {S} why.
Arguments Running {S} s.
Arguments Blocked {S}.

(** A call that ends as [o] does and, when [o] returns, returns [a]. *)
Definition and_return {S A : Type} (o : outcome S) (a : A) : outcome (S * A) :=
  match o with
  | Returned s => Returned (s, a)
  | Panicked why => Panicked why
  | Running s => Running (s, a)
  | Blocked => Blocked
  end.

(** One line written to standard output and to every writer, in order. *)
Definition write_line (line : string) (st : Logger.t * Sink) : Logger.t * Sink :=
  let '(logger, stdout) := st in
  (Logger.set_writers logger (map (fun w => (w ++ [line])%list) (Logger.writers logger)),
   (stdout ++ [line])%list).

(** The inner loop of [printMessage]: the last newline at an offset of at
    most [msgLen], or -1. *)
Fixpoint lastNewline (fuel : nat) (text : string) (msgLen index i : Z) : result Z :=
  if negb (i =? -1) && (i <=? msgLen) then
    match fuel with
    | O => OutOfFuel
    | S f =>
        let index := i in
        match slice_from text (i + 1) with
        | Ok rest =>
            let i := strings.Index rest newline in
            if i =? -1 then Ok index
            else lastNewline f text msgLen index (i + index + 1)
        | Panic why => Panic why
        | OutOfFuel => OutOfFuel
        end
    end
  else Ok index.

(** The two slices of one cut: the fragment and what follows it. *)
Definition cut (text : string) (msgLen index : Z) : result (string * string) :=
  if index =? -1 then
    match slice_to text msgLen, slice_from text msgLen with
    | Ok part, Ok rest => Ok (part, rest)
    | Panic why, _ | _, Panic why => Panic why
    | _, _ => OutOfFuel
    end
  else
    match slice_to text index, slice_from text (index + 1) with
    | Ok part, Ok rest => Ok (part, rest)
    | Panic why, _ | _, Panic why => Panic why
    | _, _ => OutOfFuel
    end.

(** The body of the outer loop of [printMessage] (lines 66-90).  The rest of
    the text is stored in the copy [msgPart]; [msg] is what the loop
    condition reads again. *)
Definition splitBody (msg : LogMsg.t) (st : Logger.t * Sink)
  : result (LogMsg.t * (Logger.t * Sink)) :=
  let msgLen := Logger.msgLen (fst st) in
  let text := LogMsg.Message msg in
  match lastNewline (S (String.length text)) text msgLen (-1)
          (strings.Index text newline) with
  | Ok index =>
      let msgPart := msg in
      match cut text msgLen index with
      | Ok (part, text) =>
          let msgPart := LogMsg.set_Message msgPart part in
          let bytestring := Marshal msgPart in
          let st := write_line (bytestring ++ newline) st in
          let msgPart := LogMsg.set_Message msgPart text in
          Ok (msg, st)
      | Panic why => Panic why
      | OutOfFuel => OutOfFuel
      end
  | Panic why => Panic why
  | OutOfFuel => OutOfFuel
  end.

(** The outer loop and the final line (lines 65-97); [fuel] bounds the
    number of iterations. *)
Fixpoint splitLoop (fuel : nat) (msg : LogMsg.t) (st : Logger.t * Sink)
  : outcome (Logger.t * Sink) :=
  if len (LogMsg.Message msg) >? Logger.msgLen (fst st) then
    match fuel with
    | O => Running st
    | S f =>
        match splitBody msg st with
        | Ok (msg, st) => splitLoop f msg st
        | Panic why => Panicked why
        | OutOfFuel => Running st
        end
    end
  else Returned (write_line (Marshal msg ++ newline) st).

(** [func (logger *Logger) printMessage(msg LogMsg)] *)
Definition printMessage (fuel : nat) (msg : LogMsg.t) (st : Logger.t * Sink)
  : outcome (Logger.t * Sink) :=
  if LogMsg.Level msg <? Logger.Level (fst st) then Returned st
  else splitLoop fuel msg st.

(** *** The handle and its delivery goroutine *)

(** Where the goroutine started by [Init] stands. *)
Inductive Routine : Type :=
| Receiving                   (* blocked in [range logger.output] *)
| Holding (msg : LogMsg.t)    (* has taken [msg]; inside [printMessage] *)
| Signalling                  (* blocked in [logger.stop <- true] *)
| Exited.

Record Process : Type :=
  { logger : Logger.t;
    routine : Routine;
    Stdout : Sink }.

(** What a log call reads from its surroundings: [time.Now()] and the file
    and line [runtime.Caller(2)] reports. *)
Record Site : Type :=
  { now : string;
    fileName : string;
    lineNumber : Z }.

(** [os.Getenv]: the value of the variable, empty when it is not set. *)
Fixpoint Getenv (env : list (string * string)) (key : string) : string :=
  match env with
  | [] => EmptyString
  | (k, v) :: rest => if String.eqb k key then v else Getenv rest key
  end.

(** [func Init(module string) *Logger] *)
Definition Init (env : list (string * string)) (stdout : Sink) (module : string)
  : Process :=
  let level := Getenv env "LOGLEVEL" in
  let Level :=
    if String.eqb level "ERROR" || String.eqb level "3" then ErrorLevel
    else if String.eqb level "WARNING" || String.eqb level "2" then WarningLevel
    else if String.eqb level "DEBUG" || String.eqb level "0" then DebugLevel
    else InfoLevel in
  let msgLen := fst (strconv.Atoi (Getenv env "LOG_MSG_LEN")) in
  let msgLen := if msgLen =? 0 then MaxMsgLength else msgLen in
  {| logger := Logger.mk module EmptyString make_chan Level [] make_chan msgLen;
     routine := Receiving;
     Stdout := stdout |}.

(** The goroutine of [Init] runs until it blocks again:
    [for msg := range logger.output { logger.printMessage(msg) }] and then
    [logger.stop <- true]. *)
Definition work (fuel : nat) (p : Process) : outcome Process :=
  let next := if closed (Logger.output (logger p)) then Signalling else Receiving in
  match routine p with
  | Holding msg =>
      match printMessage fuel msg (logger p, Stdout p) with
      | Returned (l, out) => Returned {| logger := l; routine := next; Stdout := out |}
      | Running (l, out) => Running {| logger := l; routine := Holding msg; Stdout := out |}
      | Panicked why => Panicked why
      | Blocked => Blocked
      end
  | Receiving => Returned {| logger := logger p; routine := next; Stdout := Stdout p |}
  | Signalling | Exited => Returned p
  end.

(** [logger.output <- msg]: panics on a closed channel; otherwise completes
    when the goroutine comes back to its receive and takes the record. *)
Definition send (fuel : nat) (p : Process) (msg : LogMsg.t) : outcome Process :=
  if closed (Logger.output (logger p)) then Panicked SendOnClosed
  else
    match work fuel p with
    | Returned q =>
        match routine q with
        | Receiving =>
            Returned {| logger := logger q; routine := Holding msg; Stdout := Stdout q |}
        | _ => Blocked
        end
    | Running _ => Blocked
    | Panicked why => Panicked why
    | Blocked => Blocked
    end.

Section Liblog.

(** The operands of a log call and their formatting by [fmt]. *)
Variable value : Type.
Variable withOperands : string -> list value -> string.

(** [func (logger *Logger) log(level LogLevel, format string, values ...interface{})] *)
Definition log (fuel : nat) (p : Process) (site : Site)
           (level : LogLevel) (format : string) (values : list value)
  : outcome Process :=
  send fuel p
    (LogMsg.mk (now site) level
       (fmt.Sprintf value withOperands format values)
       (Logger.module (logger p)) (Logger.id (logger p))
       (filepath.Base (fileName site)) (lineNumber site)).

Definition Debug fuel p site format values := log fuel p site DebugLevel format values.
Definition Info fuel p site format values := log fuel p site InfoLevel format values.
Definition Warning fuel p site format values := log fuel p site WarningLevel format values.
Definition Error fuel p site format values := log fuel p site ErrorLevel format values.

(** [func (logger *Logger) Stop()] *)
Definition Stop (p : Process) : outcome Process :=
  match close_chan (Logger.output (logger p)) with
  | Ok c =>
      Returned {| logger := Logger.set_output (logger p) c;
                  routine := routine p; Stdout := Stdout p |}
  | Panic why => Panicked why
  | OutOfFuel => Blocked
  end.

(** [<-logger.stop]: a closed channel yields at once; otherwise the
    caller waits for the goroutine to reach its send. *)
Definition receive_stop (fuel : nat) (p : Process) : outcome Process :=
  if closed (Logger.stop (logger p)) then Returned p
  else
    match work fuel p with
    | Returned q =>
        match routine q with
        | Signalling =>
            Returned {| logger := logger q; routine := Exited; Stdout := Stdout q |}
        | _ => Blocked
        end
    | Running _ => Blocked
    | Panicked why => Panicked why
    | Blocked => Blocked
    end.

(** [func (logger *Logger) StopSync()] *)
Definition StopSync (fuel : nat) (p : Process) : outcome Process :=
  match Stop p with
  | Returned p1 =>
      match receive_stop fuel p1 with
      | Returned p2 =>
          match close_chan (Logger.stop (logger p2)) with
          | Ok c =>
              Returned {| logger := Logger.set_stop (logger p2) c;
                          routine := routine p2; Stdout := Stdout p2 |}
          | Panic why => Panicked why
          | OutOfFuel => Blocked
          end
      | other => other
      end
  | other => other
  end.

(** [type LogWriter struct]; [host] is the logger of the process the
    call runs on. *)
Record LogWriter : Type := { level : LogLevel }.

(** [func (writer *LogWriter) Write(p []byte) (n int, err error)]: the call
    of [log], then [return len(p), nil]. *)
Definition Write (fuel : nat) (p : Process) (site : Site)
           (writer : LogWriter) (buf : list ascii)
  : outcome (Process * (Z * option string)) :=
  let msg := string_of_list_ascii buf in
  and_return (log fuel p site (level writer) msg [])
    (Z.of_nat (List.length buf), None).

Definition DebugWriter : LogWriter := {| level := DebugLevel |}.
Definition InfoWriter : LogWriter := {| level := InfoLevel |}.
Definition WarningWriter : LogWriter := {| level := WarningLevel |}.

(** [func (logger *Logger) AddWriter(writer io.Writer)] *)
Definition AddWriter (p : Process) (writer : Sink) : Process :=
  {| logger := Logger.set_writers (logger p) (Logger.writers (logger p) ++ [writer])%list;
     routine := routine p; Stdout := Stdout p |}.

(** [func (logger *Logger) SetModuleId(id string)] *)
Definition SetModuleId (p : Process) (id : string) : Process :=
  {| logger := Logger.set_id (logger p) id; routine := routine p; Stdout := Stdout p |}.

(** *** The singleton *)

(** [var singleLogger *Logger], with the goroutine of the logger it
    points to, and standard output. *)
Record Package : Type :=
  { singleLogger : option (Logger.t * Routine);
    os_Stdout : Sink }.

Definition on_single (f : Process -> outcome Process) (g : Package)
  : outcome Package :=
  match singleLogger g with
  | None => Returned g
  | Some (l, r) =>
      match f {| logger := l; routine := r; Stdout := os_Stdout g |} with
      | Returned q =>
          Returned {| singleLogger := Some (logger q, routine q); os_Stdout := Stdout q |}
      | Running q =>
          Running {| singleLogger := Some (logger q, routine q); os_Stdout := Stdout q |}
      | Panicked why => Panicked why
      | Blocked => Blocked
      end
  end.

Definition reset_single (o : outcome Package) : outcome Package :=
  match o with
  | Returned g => Returned {| singleLogger := None; os_Stdout := os_Stdout g |}
  | other => other
  end.

(** [func InitSingleStr(module string) *Logger] *)
Definition InitSingleStr (env : list (string * string)) (g : Package) (module : string)
  : Package :=
  match singleLogger g with
  | None =>
      let p := Init env (os_Stdout g) module in
      {| singleLogger := Some (logger p, routine p); os_Stdout := Stdout p |}
  | Some _ => g
  end.

(** The package-level [Info]; [Debug], [Warning] and [Error] differ in the
    level only. *)
Definition single_log (fuel : nat) (g : Package) (site : Site)
           (level : LogLevel) (format : string) (values : list value)
  : outcome Package :=
  on_single (fun p => log fuel p site level format values) g.

(** [func StopSingle()] and [func StopSyncSingle()] *)
Definition StopSingle (g : Package) : outcome Package :=
  reset_single (on_single Stop g).
Definition StopSyncSingle (fuel : nat) (g : Package) : outcome Package :=
  reset_single (on_single (StopSync fuel) g).

End Liblog.

(** Text made of the bytes of a JSON integer. *)
Fixpoint all_number (s : string) : bool :=
  match s with
  | EmptyString => true
  | String c r => json.number_byte c && all_number r
  end.

(** What the decoder makes of one member written by [Marshal]. *)
Definition decoded_member (f : string * member) : string * json.value :=
  (json.coerce (fst f),
   match snd f with
   | MString s => json.Str (json.coerce s)
   | MInt z => json.Num (strconv.Itoa z)
   | MLevel l => json.Str (json.coerce (LevelName l))
   end).



(** ** Sample data *)

(** A handle created with [LOG_MSG_LEN=10] and no [LOGLEVEL]: level Info. *)
Definition sample_process : Process :=
  Init [("LOG_MSG_LEN", "10")] [] "svc".

(** A handle created in an empty environment: level Info, threshold 8000. *)
Definition default_process : Process := Init [] [] "svc".

(** The handle of [sample_process] with one registered writer. *)
Definition sample_logger : Logger.t :=
  Logger.set_writers (logger sample_process) [[]].

Definition sample_site : Site :=
  {| now := "2020-05-01T10:00:00Z"; fileName := "/src/app/main.go"; lineNumber := 42 |}.

Definition sample_msg (level : LogLevel) (text : string) : LogMsg.t :=
  LogMsg.mk (now sample_site) level text "svc" EmptyString "main.go" 42.

(** ** Reading the output back *)

(** A line without the newline that ends it, and the decoded message
    fields of the lines written to a sink. *)
Fixpoint chomp (line : string) : string :=
  match line with
  | EmptyString => EmptyString
  | String c r =>
      match r with
      | EmptyString => if byte_val c =? 10 then EmptyString else line
      | _ => String c (chomp r)
      end
  end.

Definition message_fields (out : Sink) : list (option string) :=
  map (fun line => decoded_message (chomp line)) out.

(** ** Lines, records and handles, for the statements below *)

(** The line written for a record. *)
Definition line_of (m : LogMsg.t) : string := Marshal m ++ newline.

(** The state after the lines [lines] went to standard output and to every
    writer. *)
Definition appended (lines : list string) (st : Logger.t * Sink) : Logger.t * Sink :=
  (Logger.set_writers (fst st)
     (map (fun w => (w ++ lines)%list) (Logger.writers (fst st))),
   (snd st ++ lines)%list).

(** Text without control bytes, text of ASCII bytes, and text without path
    separator. *)
Fixpoint no_control (s : string) : bool :=
  match s with
  | EmptyString => true
  | String c r => (32 <=? byte_val c) && no_control r
  end.

Fixpoint ascii_only (s : string) : bool :=
  match s with
  | EmptyString => true
  | String c r => (byte_val c <? 128) && ascii_only r
  end.

Fixpoint no_sep (s : string) : bool :=
  match s with
  | EmptyString => true
  | String c r => negb (filepath.is_sep c) && no_sep r
  end.

(** [s[i]], and the positions of the newlines of a text. *)
Definition byte_at (s : string) (i : Z) : option ascii :=
  if i <? 0 then None else String.get (Z.to_nat i) s.

Definition newline_at (s : string) (i : Z) : Prop := byte_at s i = Some (byte_of 10).

(** The level filter of [printMessage], and the lines written for the
    records that pass it. *)
Definition passes (l : Logger.t) (m : LogMsg.t) : bool :=
  negb (LogMsg.Level m <? Logger.Level l).

Definition delivered (l : Logger.t) (ms : list LogMsg.t) : list string :=
  map line_of (filter (passes l) ms).

(** The record the goroutine has taken and not yet printed. *)
Definition holding (p : Process) : list LogMsg.t :=
  match routine p with
  | Holding m => [m]
  | _ => []
  end.

(** A record that needs no splitting. *)
Definition short (l : Logger.t) (m : LogMsg.t) : Prop :=
  len (LogMsg.Message m) <= Logger.msgLen l.

(** A handle that accepts records: its queue is open and its goroutine
    waits for a record or holds one that needs no splitting. *)
Definition live (p : Process) : Prop :=
  closed (Logger.output (logger p)) = false
  /\ (routine p = Receiving \/ exists m, routine p = Holding m /\ short (logger p) m).

Section Calls.
Variable value : Type.
Variable withOperands : string -> list value -> string.

(** One leveled log call: where it is made and what it is given. *)
Record Call : Type :=
  { call_site : Site;
    call_level : LogLevel;
    call_format : string;
    call_values : list value }.

(** The record [log] builds for a call (lines 102-110). *)
Definition record_of (l : Logger.t) (c : Call) : LogMsg.t :=
  LogMsg.mk (now (call_site c)) (call_level c)
    (fmt.Sprintf value withOperands (call_format c) (call_values c))
    (Logger.module l) (Logger.id l)
    (filepath.Base (fileName (call_site c))) (lineNumber (call_site c)).

(** Log calls made one after the other by one caller. *)
Fixpoint log_all (fuel : nat) (p : Process) (calls : list Call) : outcome Process :=
  match calls with
  | [] => Returned p
  | c :: rest =>
      match log value withOperands fuel p (call_site c) (call_level c)
              (call_format c) (call_values c) with
      | Returned q => log_all fuel q rest
      | other => other
      end
  end.
End Calls.

(** Two calls on a fresh handle: a Debug record, which the Info filter
    drops, and an Error record. *)
Definition sample_calls : list (Call unit) :=
  [ {| call_site := sample_site; call_level := DebugLevel;
       call_format := "x"; call_values := [] |};
    {| call_site := sample_site; call_level := ErrorLevel;
       call_format := "y"; call_values := [] |} ].

(** * Properties *)

(** ** Strings *)

Lemma len_nonneg (s : string) : 0 <= len s.
Proof. unfold len. lia. Qed.

Lemma len_String (c : ascii) (s : string) : len (String c s) = len s + 1.
Proof. unfold len. simpl String.length. lia. Qed.

Lemma length_append (s t : string) :
  String.length (s ++ t) = (String.length s + String.length t)%nat.
Proof. induction s as [|c s IH]; simpl; [reflexivity | now rewrite IH]. Qed.

Lemma append_assoc (s t u : string) : (s ++ t) ++ u = s ++ (t ++ u).
Proof. induction s as [|c s IH]; simpl; [reflexivity | now rewrite IH]. Qed.

Lemma take_drop (n : nat) (s : string) : take n s ++ drop n s = s.
Proof.
  revert s; induction n as [|n IH]; intros [|c s]; simpl; try reflexivity.
  now rewrite IH.
Qed.

Lemma length_drop (n : nat) (s : string) :
  String.length (drop n s) = (String.length s - n)%nat.
Proof.
  revert s; induction n as [|n IH]; intros [|c s]; simpl; try reflexivity.
  apply IH.
Qed.

Lemma length_take (n : nat) (s : string) :
  (n <= String.length s)%nat -> String.length (take n s) = n.
Proof.
  revert s; induction n as [|n IH]; intros [|c s]; simpl; intros H;
    try reflexivity; try lia.
  rewrite IH; [reflexivity | lia].
Qed.

(** [strings.Index] for the newline: -1 or a position inside the text. *)
Lemma Index_newline_range (s : string) :
  strings.Index s newline = -1 \/ 0 <= strings.Index s newline < len s.
Proof.
  induction s as [|c s IH].
  - left; reflexivity.
  - rewrite len_String. cbn [strings.Index].
    destruct (String.prefix newline (String c s)); [right; pose proof (len_nonneg s); lia|].
    destruct IH as [-> | IH]; [left; reflexivity|].
    right. destruct (Z.eqb_spec (strings.Index s newline) (-1)); lia.
Qed.

(** ** UTF-8: decoding and encoding a rune *)

Lemma byte_val_range (c : ascii) : 0 <= byte_val c < 256.
Proof. unfold byte_val. pose proof (N_ascii_bounded c). lia. Qed.

Lemma byte_of_val (c : ascii) : byte_of (byte_val c) = c.
Proof.
  unfold byte_of. pose proof (byte_val_range c) as H.
  rewrite Z.mod_small by exact H. unfold byte_val.
  rewrite N2Z.id. apply ascii_N_embedding.
Qed.

Lemma ch_byte_val (c : ascii) (z : Z) : z = byte_val c -> ch z = String c EmptyString.
Proof. intros ->. unfold ch. now rewrite byte_of_val. Qed.

Lemma lor_disjoint (a b k : Z) :
  0 <= k -> 0 <= b < 2 ^ k -> Z.lor (a * 2 ^ k) b = a * 2 ^ k + b.
Proof.
  intros Hk Hb.
  rewrite <- (Z.add_lor_land (a * 2 ^ k) b).
  assert (E : Z.land (a * 2 ^ k) b = 0).
  { apply Z.bits_inj'. intros n Hn. rewrite Z.land_spec, Z.bits_0.
    destruct (Z.lt_ge_cases n k) as [Hlt|Hge].
    - rewrite Z.mul_pow2_bits_low by lia. reflexivity.
    - destruct (Z.eq_dec b 0) as [->|Hb0]; [rewrite Z.bits_0; apply andb_false_r|].
      rewrite (Z.bits_above_log2 b n); [apply andb_false_r | lia |].
      apply Z.log2_lt_pow2; [lia|].
      apply Z.lt_le_trans with (2 ^ k); [lia|]. apply Z.pow_le_mono_r; lia. }
  rewrite E. lia.
Qed.


Lemma lor_add (a b m : Z) (k : Z) :
  m = 2 ^ k -> 0 <= k -> 0 <= b < m -> Z.lor (a * m) b = a * m + b.
Proof. intros -> Hk Hb. now apply lor_disjoint. Qed.

Lemma land_mask (x m : Z) (k : Z) :
  m = Z.ones k -> 0 <= k -> Z.land x m = x mod 2 ^ k.
Proof. intros -> Hk. now apply Z.land_ones. Qed.

Lemma land_63 (x : Z) : Z.land x 63 = x mod 64.
Proof. exact (land_mask x 63 6 eq_refl ltac:(lia)). Qed.
Lemma land_31 (x : Z) : Z.land x 31 = x mod 32.
Proof. exact (land_mask x 31 5 eq_refl ltac:(lia)). Qed.
Lemma land_15 (x : Z) : Z.land x 15 = x mod 16.
Proof. exact (land_mask x 15 4 eq_refl ltac:(lia)). Qed.
Lemma land_7 (x : Z) : Z.land x 7 = x mod 8.
Proof. exact (land_mask x 7 3 eq_refl ltac:(lia)). Qed.

Lemma shiftl_6 (x : Z) : Z.shiftl x 6 = x * 64.
Proof. now rewrite Z.shiftl_mul_pow2. Qed.
Lemma shiftl_12 (x : Z) : Z.shiftl x 12 = x * 4096.
Proof. now rewrite Z.shiftl_mul_pow2. Qed.
Lemma shiftl_18 (x : Z) : Z.shiftl x 18 = x * 262144.
Proof. now rewrite Z.shiftl_mul_pow2. Qed.
Lemma shiftr_6 (x : Z) : Z.shiftr x 6 = x / 64.
Proof. now rewrite Z.shiftr_div_pow2. Qed.
Lemma shiftr_12 (x : Z) : Z.shiftr x 12 = x / 4096.
Proof. now rewrite Z.shiftr_div_pow2. Qed.
Lemma shiftr_18 (x : Z) : Z.shiftr x 18 = x / 262144.
Proof. now rewrite Z.shiftr_div_pow2. Qed.

Lemma dec2 (b0 b1 : Z) :
  Z.lor (Z.shiftl (Z.land b0 31) 6) (Z.land b1 63) = (b0 mod 32) * 64 + b1 mod 64.
Proof.
  rewrite land_31, land_63, shiftl_6.
  apply (lor_add _ _ 64 6); [reflexivity | lia | apply Z.mod_pos_bound; lia].
Qed.

Lemma dec3 (b0 b1 b2 : Z) :
  Z.lor (Z.shiftl (Z.land b0 15) 12)
    (Z.lor (Z.shiftl (Z.land b1 63) 6) (Z.land b2 63))
  = (b0 mod 16) * 4096 + ((b1 mod 64) * 64 + b2 mod 64).
Proof.
  rewrite land_15, !land_63, shiftl_6, shiftl_12.
  pose proof (Z.mod_pos_bound b1 64 ltac:(lia)).
  pose proof (Z.mod_pos_bound b2 64 ltac:(lia)).
  rewrite (lor_add (b1 mod 64) _ 64 6) by (reflexivity || lia).
  apply (lor_add _ _ 4096 12); [reflexivity | lia | lia].
Qed.

Lemma dec4 (b0 b1 b2 b3 : Z) :
  Z.lor (Z.shiftl (Z.land b0 7) 18)
    (Z.lor (Z.shiftl (Z.land b1 63) 12)
       (Z.lor (Z.shiftl (Z.land b2 63) 6) (Z.land b3 63)))
  = (b0 mod 8) * 262144 + ((b1 mod 64) * 4096 + ((b2 mod 64) * 64 + b3 mod 64)).
Proof.
  rewrite land_7, !land_63, shiftl_6, shiftl_12, shiftl_18.
  pose proof (Z.mod_pos_bound b1 64 ltac:(lia)).
  pose proof (Z.mod_pos_bound b2 64 ltac:(lia)).
  pose proof (Z.mod_pos_bound b3 64 ltac:(lia)).
  rewrite (lor_add (b2 mod 64) _ 64 6) by (reflexivity || lia).
  rewrite (lor_add (b1 mod 64) _ 4096 12) by (reflexivity || lia).
  apply (lor_add _ _ 262144 18); [reflexivity | lia | lia].
Qed.

Lemma lor_192 (x : Z) : 0 <= x < 64 -> Z.lor 192 x = 192 + x.
Proof. intros H. exact (lor_add 3 x 64 6 eq_refl ltac:(lia) H). Qed.
Lemma lor_128 (x : Z) : 0 <= x < 64 -> Z.lor 128 x = 128 + x.
Proof. intros H. exact (lor_add 2 x 64 6 eq_refl ltac:(lia) H). Qed.
Lemma lor_224 (x : Z) : 0 <= x < 16 -> Z.lor 224 x = 224 + x.
Proof. intros H. exact (lor_add 14 x 16 4 eq_refl ltac:(lia) H). Qed.
Lemma lor_240 (x : Z) : 0 <= x < 8 -> Z.lor 240 x = 240 + x.
Proof. intros H. exact (lor_add 30 x 8 3 eq_refl ltac:(lia) H). Qed.

Lemma EncodeRune_two (c0 c1 : ascii) :
  194 <= byte_val c0 <= 223 -> 128 <= byte_val c1 <= 191 ->
  utf8.EncodeRune ((byte_val c0 mod 32) * 64 + byte_val c1 mod 64)
  = String c0 (String c1 EmptyString).
Proof.
  intros H0 H1. unfold utf8.EncodeRune.
  set (r := (byte_val c0 mod 32) * 64 + byte_val c1 mod 64).
  assert (Hr : r = (byte_val c0 - 192) * 64 + (byte_val c1 - 128)).
  { subst r. Z.div_mod_to_equations. lia. }
  destruct (Z.leb_spec 0 r); [|lia].
  destruct (Z.leb_spec r 127); [lia|].
  destruct (Z.leb_spec r 2047); [|lia]. cbn [andb].
  rewrite shiftr_6, land_63.
  rewrite lor_192, lor_128 by (Z.div_mod_to_equations; lia).
  rewrite (ch_byte_val c0), (ch_byte_val c1) by (Z.div_mod_to_equations; lia).
  reflexivity.
Qed.

Lemma EncodeRune_three (c0 c1 c2 : ascii) :
  224 <= byte_val c0 <= 239 -> 128 <= byte_val c1 <= 191 -> 128 <= byte_val c2 <= 191 ->
  (byte_val c0 = 224 -> 160 <= byte_val c1) ->
  (byte_val c0 = 237 -> byte_val c1 <= 159) ->
  utf8.EncodeRune
    ((byte_val c0 mod 16) * 4096 + ((byte_val c1 mod 64) * 64 + byte_val c2 mod 64))
  = String c0 (String c1 (String c2 EmptyString)).
Proof.
  intros H0 H1 H2 Hlo Hhi. unfold utf8.EncodeRune, utf8.MaxRune.
  set (r := (byte_val c0 mod 16) * 4096 + ((byte_val c1 mod 64) * 64 + byte_val c2 mod 64)).
  assert (Hr : r = (byte_val c0 - 224) * 4096 + (byte_val c1 - 128) * 64 + (byte_val c2 - 128)).
  { subst r. Z.div_mod_to_equations. lia. }
  assert (Hrange : 2048 <= r <= 65535 /\ (r < 55296 \/ 57343 < r)) by lia.
  destruct (Z.leb_spec 0 r); [|lia].
  destruct (Z.leb_spec r 127); [lia|].
  destruct (Z.leb_spec r 2047); [lia|]. cbn [andb].
  destruct (Z.ltb_spec r 0); [lia|].
  destruct (Z.ltb_spec 1114111 r); [lia|].
  destruct (Z.leb_spec 55296 r); destruct (Z.leb_spec r 57343); try lia; cbn [andb orb];
  (destruct (Z.leb_spec r 65535); [|lia]);
  rewrite shiftr_12, shiftr_6, !land_63;
  rewrite lor_224, !lor_128 by (Z.div_mod_to_equations; lia);
  rewrite (ch_byte_val c0), (ch_byte_val c1), (ch_byte_val c2)
    by (Z.div_mod_to_equations; lia);
  reflexivity.
Qed.

Lemma EncodeRune_four (c0 c1 c2 c3 : ascii) :
  240 <= byte_val c0 <= 244 -> 128 <= byte_val c1 <= 191 ->
  128 <= byte_val c2 <= 191 -> 128 <= byte_val c3 <= 191 ->
  (byte_val c0 = 240 -> 144 <= byte_val c1) ->
  (byte_val c0 = 244 -> byte_val c1 <= 143) ->
  utf8.EncodeRune
    ((byte_val c0 mod 8) * 262144
     + ((byte_val c1 mod 64) * 4096 + ((byte_val c2 mod 64) * 64 + byte_val c3 mod 64)))
  = String c0 (String c1 (String c2 (String c3 EmptyString))).
Proof.
  intros H0 H1 H2 H3 Hlo Hhi. unfold utf8.EncodeRune, utf8.MaxRune.
  set (r := (byte_val c0 mod 8) * 262144
     + ((byte_val c1 mod 64) * 4096 + ((byte_val c2 mod 64) * 64 + byte_val c3 mod 64))).
  assert (Hr : r = (byte_val c0 - 240) * 262144 + (byte_val c1 - 128) * 4096
                   + (byte_val c2 - 128) * 64 + (byte_val c3 - 128)).
  { subst r. Z.div_mod_to_equations. lia. }
  assert (Hrange : 65536 <= r <= 1114111) by lia.
  destruct (Z.leb_spec 0 r); [|lia].
  destruct (Z.leb_spec r 127); [lia|].
  destruct (Z.leb_spec r 2047); [lia|]. cbn [andb].
  destruct (Z.ltb_spec r 0); [lia|].
  destruct (Z.ltb_spec 1114111 r); [lia|].
  destruct (Z.leb_spec 55296 r); [|lia]. destruct (Z.leb_spec r 57343); [lia|].
  cbn [andb orb].
  destruct (Z.leb_spec r 65535); [lia|].
  rewrite shiftr_18, shiftr_12, shiftr_6, !land_63.
  rewrite lor_240, !lor_128 by (Z.div_mod_to_equations; lia).
  rewrite (ch_byte_val c0), (ch_byte_val c1), (ch_byte_val c2), (ch_byte_val c3)
    by (Z.div_mod_to_equations; lia).
  reflexivity.
Qed.

(** Decoding reads the bytes of the rune only. *)
Lemma DecodeRune_prefix (s : string) (r : Z) (size : nat) (tail : string) :
  utf8.DecodeRuneInString s = (r, size) ->
  (r =? utf8.RuneError) && (size =? 1)%nat = false ->
  s <> EmptyString ->
  utf8.DecodeRuneInString (take size s ++ tail) = (r, size)
  /\ drop size (take size s ++ tail) = tail.
Proof.
  intros H Hv Hne.
  destruct s as [|c0 s]; [congruence|]. clear Hne.
  unfold utf8.DecodeRuneInString in H.
  destruct (byte_val c0 <? utf8.RuneSelf) eqn:E0.
  { injection H as <- <-. cbn [take drop append utf8.DecodeRuneInString]. rewrite E0. auto. }
  destruct (utf8.first (byte_val c0)) as [[[sz lo] hi]|] eqn:Ef;
    [|injection H as <- <-; discriminate].
  destruct s as [|c1 s]; [injection H as <- <-; discriminate|].
  destruct ((byte_val c1 <? lo) || (hi <? byte_val c1)) eqn:E1;
    [injection H as <- <-; discriminate|].
  destruct (sz <=? 2)%nat eqn:Es2.
  { injection H as <- <-. cbn [take drop append utf8.DecodeRuneInString].
    rewrite E0, Ef, E1, Es2. auto. }
  destruct s as [|c2 s]; [injection H as <- <-; discriminate|].
  destruct (negb (utf8.cont (byte_val c2))) eqn:E2;
    [injection H as <- <-; discriminate|].
  destruct (sz <=? 3)%nat eqn:Es3.
  { injection H as <- <-. cbn [take drop append utf8.DecodeRuneInString].
    rewrite E0, Ef, E1, Es2, E2, Es3. auto. }
  destruct s as [|c3 s]; [injection H as <- <-; discriminate|].
  destruct (negb (utf8.cont (byte_val c3))) eqn:E3;
    [injection H as <- <-; discriminate|].
  injection H as <- <-. cbn [take drop append utf8.DecodeRuneInString].
  rewrite E0, Ef, E1, Es2, E2, Es3, E3. auto.
Qed.

Lemma first_ranges (b : Z) (sz : nat) (lo hi : Z) :
  utf8.first b = Some (sz, lo, hi) ->
  128 <= lo /\ hi <= 191
  /\ ((sz = 2%nat /\ 194 <= b <= 223)
      \/ (sz = 3%nat /\ 224 <= b <= 239
          /\ (b = 224 -> lo = 160) /\ (b = 237 -> hi = 159))
      \/ (sz = 4%nat /\ 240 <= b <= 244
          /\ (b = 240 -> lo = 144) /\ (b = 244 -> hi = 143))).
Proof.
  unfold utf8.first.
  repeat match goal with
         | |- context [(?x <=? ?y) && (?u <=? ?v)] =>
             destruct (Z.leb_spec x y); destruct (Z.leb_spec u v); cbn [andb]
         | |- context [?x =? ?y] => destruct (Z.eqb_spec x y)
         end;
    intros Hf; try discriminate; injection Hf as <- <- <-;
    (split; [lia|]); (split; [lia|]);
    first [ left; split; [reflexivity | lia]
          | right; left; split; [reflexivity | lia]
          | right; right; split; [reflexivity | lia] ].
Qed.

Lemma cont_range (b : Z) : utf8.cont b = true -> 128 <= b <= 191.
Proof.
  unfold utf8.cont. destruct (Z.leb_spec 128 b); destruct (Z.leb_spec b 191);
    cbn [andb]; intros Hc; try discriminate; lia.
Qed.

(** A rune that was decoded from a valid sequence is encoded as the bytes
    it was read from. *)
Lemma EncodeRune_DecodeRune (s : string) (r : Z) (size : nat) :
  utf8.DecodeRuneInString s = (r, size) ->
  (r =? utf8.RuneError) && (size =? 1)%nat = false ->
  s <> EmptyString ->
  utf8.EncodeRune r = take size s.
Proof.
  intros H Hv Hne.
  destruct s as [|c0 s]; [congruence|]. clear Hne.
  unfold utf8.DecodeRuneInString in H.
  pose proof (byte_val_range c0) as R0.
  destruct (Z.ltb_spec (byte_val c0) utf8.RuneSelf) as [E0|E0].
  { apply pair_equal_spec in H; destruct H as [<- <-]. unfold utf8.RuneSelf in E0. unfold utf8.EncodeRune.
    destruct (Z.leb_spec 0 (byte_val c0)); [|lia].
    destruct (Z.leb_spec (byte_val c0) 127); [|lia].
    cbn [andb take]. now apply ch_byte_val. }
  destruct (utf8.first (byte_val c0)) as [[[sz lo] hi]|] eqn:Ef;
    [|injection H as <- <-; discriminate].
  apply first_ranges in Ef. destruct Ef as (Hlo & Hhi & Ef).
  destruct s as [|c1 s]; [injection H as <- <-; discriminate|].
  destruct (Z.ltb_spec (byte_val c1) lo); destruct (Z.ltb_spec hi (byte_val c1));
    cbn [orb] in H; try (injection H as <- <-; discriminate).
  destruct (sz <=? 2)%nat eqn:Es2.
  { apply pair_equal_spec in H; destruct H as [<- <-]. rewrite dec2. cbn [take].
    destruct Ef as [(-> & Hb) | [(-> & _) | (-> & _)]]; try discriminate.
    apply EncodeRune_two; lia. }
  destruct s as [|c2 s]; [injection H as <- <-; discriminate|].
  destruct (utf8.cont (byte_val c2)) eqn:E2; cbn [negb] in H;
    [|injection H as <- <-; discriminate].
  apply cont_range in E2.
  destruct (sz <=? 3)%nat eqn:Es3.
  { apply pair_equal_spec in H; destruct H as [<- <-]. rewrite dec3. cbn [take].
    destruct Ef as [(-> & Hb) | [(-> & Hb & Ha & Hc) | (-> & _)]]; try discriminate.
    apply EncodeRune_three; lia. }
  destruct s as [|c3 s]; [injection H as <- <-; discriminate|].
  destruct (utf8.cont (byte_val c3)) eqn:E3; cbn [negb] in H;
    [|injection H as <- <-; discriminate].
  apply cont_range in E3.
  apply pair_equal_spec in H; destruct H as [<- <-]. rewrite dec4. cbn [take].
  destruct Ef as [(-> & Hb) | [(-> & _) | (-> & Hb & Ha & Hc)]]; try discriminate.
  apply EncodeRune_four; lia.
Qed.

Lemma DecodeRune_size (s : string) (r : Z) (size : nat) :
  utf8.DecodeRuneInString s = (r, size) ->
  s <> EmptyString ->
  (1 <= size <= String.length s)%nat.
Proof.
  intros H Hne. destruct s as [|c0 s]; [congruence|]. clear Hne.
  unfold utf8.DecodeRuneInString in H. cbn [String.length].
  repeat match type of H with
         | (if ?c then _ else _) = _ => destruct c
         | match ?x with _ => _ end = _ => destruct x
         end;
    injection H as <- <-; cbn [String.length]; lia.
Qed.

(** ** encoding/json: reading back what [Marshal] wrote *)

Lemma unquote_safe (c : ascii) (f : nat) (tail : string) :
  json.htmlSafe (byte_val c) = true ->
  json.unquote (S f) (String c tail)
  = match json.unquote f tail with
    | Some (t, k) => Some (String c t, k)
    | None => None
    end.
Proof.
  unfold json.htmlSafe. intros H. cbn [json.unquote].
  unfold utf8.RuneSelf.
  destruct (Z.leb_spec 32 (byte_val c)); [|discriminate].
  destruct (Z.ltb_spec (byte_val c) 128); [|discriminate].
  destruct (Z.eqb_spec (byte_val c) 34); [discriminate|].
  destruct (Z.eqb_spec (byte_val c) 92); [discriminate|].
  destruct (Z.ltb_spec (byte_val c) 32); [lia|].
  reflexivity.
Qed.

Lemma unquote_escape (c : ascii) (f : nat) (tail : string) :
  byte_val c < 128 ->
  json.htmlSafe (byte_val c) = false ->
  json.unquote (S f) (json.escape (byte_val c) ++ tail)
  = match json.unquote f tail with
    | Some (t, k) => Some (String c t, k)
    | None => None
    end.
Proof.
  intros H128 Hsafe.
  destruct c as [[] [] [] [] [] [] [] []];
    try (exfalso; vm_compute in H128; discriminate H128);
    try (exfalso; vm_compute in Hsafe; discriminate Hsafe);
    reflexivity.
Qed.

Lemma unquote_replacement (f : nat) (tail : string) :
  json.unquote (S f) (json.backslash ++ "ufffd" ++ tail)
  = match json.unquote f tail with
    | Some (t, k) => Some (utf8.EncodeRune utf8.RuneError ++ t, k)
    | None => None
    end.
Proof. reflexivity. Qed.

Lemma unquote_separator (r : Z) (f : nat) (tail : string) :
  r = 8232 \/ r = 8233 ->
  json.unquote (S f) (json.backslash ++ "u202" ++ json.hex (Z.land r 15) ++ tail)
  = match json.unquote f tail with
    | Some (t, k) => Some (utf8.EncodeRune r ++ t, k)
    | None => None
    end.
Proof. intros [-> | ->]; reflexivity. Qed.

Lemma unquote_rune (s : string) (r : Z) (size : nat) (f : nat) (tail : string) :
  utf8.DecodeRuneInString s = (r, size) ->
  (r =? utf8.RuneError) && (size =? 1)%nat = false ->
  (byte_val match s with String c _ => c | EmptyString => zero end <? utf8.RuneSelf) = false ->
  s <> EmptyString ->
  json.unquote (S f) (take size s ++ tail)
  = match json.unquote f tail with
    | Some (t, k) => Some (utf8.EncodeRune r ++ t, k)
    | None => None
    end.
Proof.
  intros Hd Hv Hhigh Hne.
  destruct (DecodeRune_prefix s r size tail Hd Hv Hne) as [Hp Hdrop].
  pose proof (DecodeRune_size s r size Hd Hne) as Hsize.
  destruct s as [|c s]; [congruence|].
  destruct size as [|n]; [lia|].
  cbn [take append] in *.
  cbn [json.unquote].
  unfold utf8.RuneSelf in *.
  destruct (Z.ltb_spec (byte_val c) 128); [discriminate|].
  destruct (Z.eqb_spec (byte_val c) 34); [lia|].
  destruct (Z.eqb_spec (byte_val c) 92); [lia|].
  destruct (Z.ltb_spec (byte_val c) 32); [lia|].
  rewrite Hp. rewrite Hdrop. reflexivity.
Qed.

Lemma length_escape (b : Z) : (1 <= String.length (json.escape b))%nat.
Proof.
  unfold json.escape.
  repeat match goal with |- context [if ?c then _ else _] => destruct c end;
    cbn; lia.
Qed.

(** Reading back what [encode] wrote. *)
Lemma unquote_encode (f : nat) :
  forall (s : string) (f' : nat) (rest : string),
    (String.length s <= f)%nat ->
    (String.length (json.encode f s) < f')%nat ->
    json.unquote f' (json.encode f s ++ quote ++ rest)
    = Some (json.coerce_runes f s, rest).
Proof.
  induction f as [|f IH]; intros s f' rest Hs Hf'.
  - destruct s; [|cbn in Hs; lia].
    destruct f'; [cbn in Hf'; lia|]. reflexivity.
  - destruct s as [|c s].
    + destruct f'; [cbn in Hf'; lia|]. reflexivity.
    + cbn [String.length] in Hs.
      cbn [json.encode json.coerce_runes] in *.
      destruct (byte_val c <? utf8.RuneSelf) eqn:E0.
      * (* ASCII *)
        assert (Hd : utf8.DecodeRuneInString (String c s) = (byte_val c, 1%nat)).
        { cbn [utf8.DecodeRuneInString]. now rewrite E0. }
        rewrite Hd. cbn [drop].
        assert (He : utf8.EncodeRune (byte_val c) = String c EmptyString).
        { unfold utf8.EncodeRune, utf8.RuneSelf in *.
          pose proof (byte_val_range c).
          destruct (Z.ltb_spec (byte_val c) 128); [|discriminate].
          destruct (Z.leb_spec 0 (byte_val c)); [|lia].
          destruct (Z.leb_spec (byte_val c) 127); [|lia].
          now apply ch_byte_val. }
        rewrite He. cbn [append].
        rewrite length_append in Hf'.
        destruct f' as [|f']; [lia|].
        destruct (json.htmlSafe (byte_val c)) eqn:Esafe.
        -- cbn [append]. rewrite unquote_safe by exact Esafe.
           rewrite IH; [reflexivity | lia | cbn in Hf'; lia].
        -- rewrite append_assoc.
           unfold utf8.RuneSelf in E0. apply Z.ltb_lt in E0.
           rewrite unquote_escape by assumption.
           pose proof (length_escape (byte_val c)).
           rewrite IH; [reflexivity | lia | lia].
      * destruct (utf8.DecodeRuneInString (String c s)) as [r size] eqn:Hd.
        pose proof (DecodeRune_size _ _ _ Hd ltac:(discriminate)) as Hsize.
        cbn [String.length] in Hsize.
        destruct ((r =? utf8.RuneError) && (size =? 1)%nat) eqn:Hv.
        -- apply andb_prop in Hv. destruct Hv as [Hr H1].
           apply Z.eqb_eq in Hr. apply Nat.eqb_eq in H1. subst r size.
           cbn [drop]. rewrite !append_assoc.
           rewrite !length_append in Hf'. cbn [String.length] in Hf'.
           destruct f' as [|f']; [lia|].
           rewrite unquote_replacement.
           rewrite IH; [reflexivity | lia | lia].
        -- assert (Hlen : (String.length (drop size (String c s)) <= f)%nat).
           { rewrite length_drop. cbn [String.length]. lia. }
           destruct ((r =? 8232) || (r =? 8233)) eqn:Hsep.
           ++ rewrite !append_assoc.
              rewrite !length_append in Hf'. cbn [String.length] in Hf'.
              destruct f' as [|f']; [lia|].
              rewrite unquote_separator
                by (apply orb_prop in Hsep; destruct Hsep as [H|H];
                    apply Z.eqb_eq in H; auto).
              rewrite IH; [reflexivity | exact Hlen | lia].
           ++ rewrite append_assoc. rewrite length_append in Hf'.
              rewrite length_take in Hf' by (cbn [String.length]; lia).
              destruct f' as [|f']; [lia|].
              rewrite (unquote_rune _ r size) by (assumption || discriminate).
              rewrite IH; [reflexivity | exact Hlen | lia].
Qed.

Lemma coerce_valid (f : nat) :
  forall s, utf8.Valid f s = true -> json.coerce_runes f s = s.
Proof.
  induction f as [|f IH]; intros s Hv.
  - destruct s; [reflexivity | discriminate].
  - destruct s as [|c s]; [reflexivity|].
    cbn [utf8.Valid json.coerce_runes] in *.
    destruct (utf8.DecodeRuneInString (String c s)) as [r size] eqn:Hd.
    destruct ((r =? utf8.RuneError) && (size =? 1)%nat) eqn:E; [discriminate|].
    rewrite (EncodeRune_DecodeRune _ _ _ Hd E) by discriminate.
    rewrite IH by exact Hv. apply take_drop.
Qed.

Lemma coerce_ValidString (s : string) :
  utf8.ValidString s = true -> json.coerce s = s.
Proof. apply coerce_valid. Qed.

(** A quoted string, read back: the text comes out coerced to valid UTF-8. *)
Lemma unquote_appendString (s rest : string) (fuel : nat) :
  (String.length (json.appendString s ++ rest) <= fuel)%nat ->
  exists tail,
    json.appendString s ++ rest = String (byte_of 34) tail
    /\ json.unquote fuel tail = Some (json.coerce s, rest).
Proof.
  intros Hf. unfold json.appendString in *. unfold quote at 1, ch. cbn [append].
  eexists; split; [reflexivity|].
  rewrite append_assoc. apply unquote_encode; [lia|].
  unfold quote at 1, ch in Hf. cbn [append String.length] in Hf.
  rewrite !length_append in Hf. lia.
Qed.

(** *** Numbers *)

Lemma byte_val_of (z : Z) : 0 <= z < 256 -> byte_val (byte_of z) = z.
Proof.
  intros H. unfold byte_val, byte_of. rewrite Z.mod_small by exact H.
  rewrite N_ascii_embedding by lia. lia.
Qed.

Lemma number_byte_digit (d : Z) : 0 <= d < 10 -> json.number_byte (byte_of (48 + d)) = true.
Proof.
  intros H. unfold json.number_byte. rewrite byte_val_of by lia.
  destruct (Z.leb_spec 48 (48 + d)); [|lia].
  destruct (Z.leb_spec (48 + d) 57); [|lia]. reflexivity.
Qed.

Lemma utoa_number (fuel : nat) :
  forall n acc,
    all_number acc = true ->
    all_number (strconv.utoa fuel n acc) = true
    /\ (acc <> EmptyString -> strconv.utoa fuel n acc <> EmptyString)
    /\ (fuel <> O -> strconv.utoa fuel n acc <> EmptyString).
Proof.
  induction fuel as [|f IH]; intros n acc Hacc; cbn [strconv.utoa].
  - repeat split; [exact Hacc | auto | congruence].
  - assert (Hd : all_number (String (byte_of (48 + n mod 10)) acc) = true).
    { cbn [all_number]. rewrite number_byte_digit, Hacc; [reflexivity|].
      apply Z.mod_pos_bound. lia. }
    destruct (n <? 10).
    + repeat split; [exact Hd | discriminate | discriminate].
    + destruct (IH (n / 10) _ Hd) as (H1 & H2 & _).
      repeat split; [exact H1 | intros _; apply H2; discriminate
                     | intros _; apply H2; discriminate].
Qed.

Lemma Itoa_number (z : Z) :
  all_number (strconv.Itoa z) = true /\ strconv.Itoa z <> EmptyString.
Proof.
  unfold strconv.Itoa. destruct (z <? 0).
  - cbn [append all_number].
    destruct (utoa_number (S (Z.to_nat (Z.log2 (- z)))) (- z) EmptyString eq_refl)
      as (H1 & _ & _).
    split; [|discriminate]. rewrite H1. reflexivity.
  - destruct (utoa_number (S (Z.to_nat (Z.log2 z))) z EmptyString eq_refl)
      as (H1 & _ & H3).
    split; [exact H1 | apply H3; discriminate].
Qed.

Lemma number_span_app (n : string) (c : ascii) (r : string) :
  all_number n = true ->
  json.number_byte c = false ->
  json.number_span (n ++ String c r) = (n, String c r).
Proof.
  intros Hn Hc. induction n as [|d n IH]; cbn [append json.number_span].
  - now rewrite Hc.
  - cbn [all_number] in Hn. apply andb_prop in Hn. destruct Hn as [Hd Hn].
    rewrite Hd, IH by exact Hn. reflexivity.
Qed.

(** *** One line *)

Lemma decode_member_text (v : member) (c : ascii) (r : string) (fuel : nat) :
  json.number_byte c = false ->
  (String.length (member_text v ++ String c r) <= fuel)%nat ->
  json.decode_value fuel (member_text v ++ String c r)
  = Some (snd (decoded_member (EmptyString, v)), String c r).
Proof.
  intros Hc Hf.
  assert (Hstr : forall s,
             (String.length (json.appendString s ++ String c r) <= fuel)%nat ->
             json.decode_value fuel (json.appendString s ++ String c r)
             = Some (json.Str (json.coerce s), String c r)).
  { intros s Hs. destruct (unquote_appendString s (String c r) fuel Hs) as (tail & -> & Hu).
    unfold json.decode_value. change (byte_val (byte_of 34) =? 34) with true.
    cbv iota. now rewrite Hu. }
  destruct v as [s|z|l]; cbn [member_text decoded_member snd] in *.
  - now apply Hstr.
  - destruct (Itoa_number z) as [Hn Hne].
    unfold json.decode_value.
    destruct (strconv.Itoa z) as [|d n] eqn:E; [congruence|].
    cbn [append]. cbn [all_number] in Hn.
    destruct (andb_prop _ _ Hn) as [Hd _].
    assert (Hq : (byte_val d =? 34) = false).
    { unfold json.number_byte in Hd.
      destruct (Z.eqb_spec (byte_val d) 34) as [E34|]; [|reflexivity].
      rewrite E34 in Hd. discriminate. }
    rewrite Hq.
    change (String d (n ++ String c r)) with (String d n ++ String c r).
    rewrite number_span_app by assumption. reflexivity.
  - unfold MarshalJSON in *. now apply Hstr.
Qed.

Lemma members_decode (l : list (string * member)) :
  forall fuel,
    l <> [] ->
    (String.length (members_text l) <= fuel)%nat ->
    json.members fuel (members_text l) = Some (map decoded_member l).
Proof.
  induction l as [|[k v] rest IH]; intros fuel Hne Hf; [congruence|]. clear Hne.
  cbn [members_text] in *.
  destruct (unquote_appendString k _ fuel Hf) as (tail & E & Hu).
  rewrite E in *. cbn [String.length] in Hf.
  destruct fuel as [|f]; [lia|].
  cbn [json.members]. change (byte_val (byte_of 34) =? 34) with true. cbv iota.
  rewrite Hu. cbn [append]. change (byte_val ":" =? 58) with true. cbv iota.
  assert (Hlen : (String.length tail <= f)%nat) by lia.
  assert (Htail : (String.length
                     (member_text v
                        ++ match rest with
                           | [] => members_text rest
                           | _ :: _ => "," ++ members_text rest
                           end) < String.length tail)%nat).
  { apply (f_equal String.length) in E.
    unfold json.appendString in E. rewrite ?length_append in E.
    cbn [String.length] in E. rewrite ?length_append in E. cbn [String.length] in E.
    rewrite ?length_append in *. cbn [String.length] in *.
    rewrite ?length_append in *. cbn [String.length] in *.
    change (String.length quote) with 1%nat in E. lia. }
  destruct rest as [|m rest].
  - cbn [members_text].
    rewrite (decode_member_text v "}" EmptyString (S f)) by (reflexivity || (cbn [members_text] in Htail; lia)).
    reflexivity.
  - change ("," ++ members_text (m :: rest)) with (String "," (members_text (m :: rest))) in *.
    rewrite (decode_member_text v "," _ (S f)) by (reflexivity || lia).
    change (byte_val "," =? 44) with true. cbv iota.
    rewrite IH; [reflexivity | discriminate |].
    rewrite length_append in Htail. cbn [String.length] in Htail. lia.
Qed.

Lemma chomp_line (s : string) : chomp (s ++ newline) = s.
Proof.
  induction s as [|c s IH]; [reflexivity|].
  cbn [append chomp]. rewrite IH.
  destruct s; reflexivity.
Qed.

(** The message field of the line written for a record decodes to the
    message, coerced to valid UTF-8. *)
Lemma decoded_message_Marshal (m : LogMsg.t) :
  decoded_message (Marshal m) = Some (json.coerce (LogMsg.Message m)).
Proof.
  unfold decoded_message, Marshal, json.Unmarshal.
  cbn [append]. change (byte_val "{" =? 123) with true. cbv iota.
  rewrite members_decode.
  - reflexivity.
  - discriminate.
  - cbn [String.length]. lia.
Qed.

(** ** Configuration *)







(** ** Records that need no splitting *)

Lemma printMessage_short (fuel : nat) (msg : LogMsg.t) (st : Logger.t * Sink) :
  Logger.Level (fst st) <= LogMsg.Level msg ->
  len (LogMsg.Message msg) <= Logger.msgLen (fst st) ->
  printMessage fuel msg st = Returned (write_line (Marshal msg ++ newline) st).
Proof.
  intros Hlevel Hlen. unfold printMessage.
  destruct (Z.ltb_spec (LogMsg.Level msg) (Logger.Level (fst st))); [lia|].
  destruct fuel; cbn [splitLoop];
    (destruct (Z.gtb_spec (len (LogMsg.Message msg)) (Logger.msgLen (fst st)));
     [lia | reflexivity]).
Qed.

Lemma message_fields_line (msg : LogMsg.t) :
  message_fields [Marshal msg ++ newline] = [Some (json.coerce (LogMsg.Message msg))].
Proof.
  unfold message_fields. cbn [map]. now rewrite chomp_line, decoded_message_Marshal.
Qed.

(** C8, as the spec states it, fails on a message that is not valid UTF-8:
    the one-byte message 0xFF is written as one line, and the message field
    of that line decodes to the three bytes of U+FFFD. *)
Lemma invalid_utf8_message_is_not_recovered :
  printMessage 1 (sample_msg InfoLevel (ch 255)) (logger default_process, [])
  = Returned (logger default_process,
              [Marshal (sample_msg InfoLevel (ch 255)) ++ newline])
  /\ len (ch 255) <= Logger.msgLen (logger default_process)
  /\ message_fields [Marshal (sample_msg InfoLevel (ch 255)) ++ newline]
     = [Some (ch 239 ++ ch 191 ++ ch 189)]
  /\ ch 239 ++ ch 191 ++ ch 189 <> ch 255.
Proof.
  split; [vm_compute; reflexivity|].
  split; [vm_compute; discriminate|].
  split; [vm_compute; reflexivity|].
  vm_compute. discriminate.
Qed.

(** C8, amended.  A record that passes the level filter and whose message
    is valid UTF-8 and at most [msgLen] bytes long is written as exactly one
    line, to standard output and to every writer, and the message field of
    that line decodes to the message, byte for byte. *)
Theorem short_valid_message_round_trips :
  forall (fuel : nat) (msg : LogMsg.t) (l : Logger.t) (out : Sink),
    Logger.Level l <= LogMsg.Level msg ->
    len (LogMsg.Message msg) <= Logger.msgLen l ->
    utf8.ValidString (LogMsg.Message msg) = true ->
    printMessage fuel msg (l, out)
    = Returned
        (Logger.set_writers l
           (map (fun w => (w ++ [(Marshal msg ++ newline)%string])%list)
              (Logger.writers l)),
         (out ++ [(Marshal msg ++ newline)%string])%list)
    /\ message_fields [Marshal msg ++ newline] = [Some (LogMsg.Message msg)].
Proof.
  intros fuel msg l out Hlevel Hlen Hvalid. split.
  - now rewrite printMessage_short.
  - rewrite message_fields_line. now rewrite coerce_ValidString.
Qed.

Lemma short_valid_message_round_trips_witness :
  printMessage 1 (sample_msg InfoLevel "short") (sample_logger, [])
  = Returned
      (Logger.set_writers sample_logger
         [[Marshal (sample_msg InfoLevel "short") ++ newline]],
       [Marshal (sample_msg InfoLevel "short") ++ newline])
  /\ message_fields [Marshal (sample_msg InfoLevel "short") ++ newline] = [Some "short"].
Proof.
  apply (short_valid_message_round_trips 1 (sample_msg InfoLevel "short")
           sample_logger []).
  - vm_compute. discriminate.
  - vm_compute. discriminate.
  - vm_compute. reflexivity.
Defined.




(** ** The level filter and the splitting loop *)

Lemma slice_from_ok (s : string) (n : Z) :
  0 <= n <= len s -> slice_from s n = Ok (drop (Z.to_nat n) s).
Proof.
  intros H. unfold slice_from.
  destruct (Z.leb_spec 0 n); [|lia]. destruct (Z.leb_spec n (len s)); [|lia].
  reflexivity.
Qed.

Lemma slice_to_ok (s : string) (n : Z) :
  0 <= n <= len s -> slice_to s n = Ok (take (Z.to_nat n) s).
Proof.
  intros H. unfold slice_to.
  destruct (Z.leb_spec 0 n); [|lia]. destruct (Z.leb_spec n (len s)); [|lia].
  reflexivity.
Qed.

Lemma slice_to_negative (s : string) (n : Z) : n < 0 -> slice_to s n = Panic SliceBounds.
Proof.
  intros H. unfold slice_to. destruct (Z.leb_spec 0 n); [lia | reflexivity].
Qed.

(** The newline found by the inner loop is a position of the text at or
    before [msgLen]; the loop does not run out of budget. *)
Lemma lastNewline_range (fuel : nat) (text : string) (msgLen : Z) :
  forall index i,
    (index = -1 \/ (0 <= index < len text /\ index <= msgLen)) ->
    (i = -1 \/ (0 <= i < len text /\ len text - i < Z.of_nat fuel)) ->
    exists r, lastNewline fuel text msgLen index i = Ok r
              /\ (r = -1 \/ (0 <= r < len text /\ r <= msgLen)).
Proof.
  induction fuel as [|f IH]; intros index i Hindex Hi.
  - destruct Hi as [-> | [Hi Hf]]; [|lia].
    exists index; split; [reflexivity | exact Hindex].
  - cbn [lastNewline].
    destruct (Z.eqb_spec i (-1)) as [->|Hne]; cbn [negb andb].
    + exists index; split; [reflexivity | exact Hindex].
    + destruct Hi as [Hi | [Hi Hf]]; [contradiction|].
      destruct (Z.leb_spec i msgLen) as [Hle|Hgt].
      * rewrite slice_from_ok by lia.
        pose proof (Index_newline_range (drop (Z.to_nat (i + 1)) text)) as Hr.
        assert (Hlen : len (drop (Z.to_nat (i + 1)) text) = len text - (i + 1)).
        { unfold len in *. rewrite length_drop. lia. }
        rewrite Hlen in Hr.
        destruct (Z.eqb_spec (strings.Index (drop (Z.to_nat (i + 1)) text) newline) (-1))
          as [E|E].
        -- exists i; split; [reflexivity | right; lia].
        -- apply IH; [right; lia | right; lia].
      * exists index; split; [reflexivity | exact Hindex].
Qed.

Lemma lastNewline_none (fuel : nat) (text : string) (msgLen index : Z) :
  lastNewline fuel text msgLen index (-1) = Ok index.
Proof. destruct fuel; reflexivity. Qed.

Lemma cut_ok (text : string) (msgLen index : Z) :
  0 <= msgLen < len text ->
  (index = -1 \/ (0 <= index < len text /\ index <= msgLen)) ->
  exists part rest, cut text msgLen index = Ok (part, rest).
Proof.
  intros Hm Hi. unfold cut.
  destruct (Z.eqb_spec index (-1)) as [->|Hne].
  - rewrite slice_to_ok, slice_from_ok by lia. eauto.
  - destruct Hi as [Hi|Hi]; [contradiction|].
    rewrite slice_to_ok, slice_from_ok by lia. eauto.
Qed.

Lemma msgLen_write_line (line : string) (st : Logger.t * Sink) :
  Logger.msgLen (fst (write_line line st)) = Logger.msgLen (fst st).
Proof. destruct st as [l out]; reflexivity. Qed.

Lemma stdout_write_line (line : string) (st : Logger.t * Sink) :
  snd (write_line line st) = (snd st ++ [line])%list.
Proof. destruct st as [l out]; reflexivity. Qed.

(** One iteration of the outer loop writes one fragment and hands the
    record back unchanged: the rest of the text went into the copy. *)
Lemma splitBody_keeps_msg (msg : LogMsg.t) (st : Logger.t * Sink) :
  0 <= Logger.msgLen (fst st) < len (LogMsg.Message msg) ->
  exists part,
    splitBody msg st
    = Ok (msg, write_line (Marshal (LogMsg.set_Message msg part) ++ newline) st).
Proof.
  intros Hm. unfold splitBody.
  destruct (lastNewline_range (S (String.length (LogMsg.Message msg)))
              (LogMsg.Message msg) (Logger.msgLen (fst st)) (-1)
              (strings.Index (LogMsg.Message msg) newline)) as (r & -> & Hr).
  - left; reflexivity.
  - destruct (Index_newline_range (LogMsg.Message msg)) as [E|E]; [left; exact E|].
    right. split; [exact E|]. unfold len in *. lia.
  - destruct (cut_ok (LogMsg.Message msg) (Logger.msgLen (fst st)) r Hm Hr)
      as (part & rest & ->).
    exists part; reflexivity.
Qed.

Lemma splitBody_hard_cut (msg : LogMsg.t) (st : Logger.t * Sink) :
  0 <= Logger.msgLen (fst st) < len (LogMsg.Message msg) ->
  strings.Index (LogMsg.Message msg) newline = -1 ->
  splitBody msg st
  = Ok (msg,
        write_line
          (Marshal (LogMsg.set_Message msg
                      (take (Z.to_nat (Logger.msgLen (fst st))) (LogMsg.Message msg)))
             ++ newline) st).
Proof.
  intros Hm Hnl. unfold splitBody. rewrite Hnl, lastNewline_none.
  unfold cut. change (-1 =? -1) with true. cbv iota.
  rewrite slice_to_ok, slice_from_ok by lia. reflexivity.
Qed.

Lemma splitBody_negative (msg : LogMsg.t) (st : Logger.t * Sink) :
  Logger.msgLen (fst st) < 0 -> splitBody msg st = Panic SliceBounds.
Proof.
  intros Hm. unfold splitBody.
  assert (E : lastNewline (S (String.length (LogMsg.Message msg))) (LogMsg.Message msg)
                (Logger.msgLen (fst st)) (-1)
                (strings.Index (LogMsg.Message msg) newline) = Ok (-1)).
  { destruct (Index_newline_range (LogMsg.Message msg)) as [->|Hr];
      [apply lastNewline_none|].
    cbn [lastNewline].
    destruct (Z.eqb_spec (strings.Index (LogMsg.Message msg) newline) (-1)); [reflexivity|].
    destruct (Z.leb_spec (strings.Index (LogMsg.Message msg) newline)
                (Logger.msgLen (fst st))); [lia | reflexivity]. }
  rewrite E. unfold cut. change (-1 =? -1) with true. cbv iota.
  rewrite slice_to_negative by exact Hm. reflexivity.
Qed.

Lemma iter_shift {A : Type} (f : A -> A) (n : nat) (x : A) :
  Nat.iter n f (f x) = Nat.iter (S n) f x.
Proof. induction n as [|n IH]; simpl; [reflexivity | now rewrite IH]. Qed.

Lemma splitLoop_hard_cut_runs (msg : LogMsg.t) (m : Z) :
  0 <= m < len (LogMsg.Message msg) ->
  strings.Index (LogMsg.Message msg) newline = -1 ->
  forall fuel st,
    Logger.msgLen (fst st) = m ->
    splitLoop fuel msg st
    = Running
        (Nat.iter fuel
           (write_line
              (Marshal (LogMsg.set_Message msg (take (Z.to_nat m) (LogMsg.Message msg)))
                 ++ newline)) st).
Proof.
  intros Hm Hnl. induction fuel as [|f IH]; intros st Hst; cbn [splitLoop]; rewrite Hst.
  - destruct (Z.gtb_spec (len (LogMsg.Message msg)) m); [reflexivity | lia].
  - destruct (Z.gtb_spec (len (LogMsg.Message msg)) m); [|lia].
    rewrite splitBody_hard_cut by (rewrite ?Hst; assumption).
    rewrite Hst, IH by (rewrite msgLen_write_line; exact Hst).
    now rewrite iter_shift.
Qed.

Lemma splitLoop_runs (msg : LogMsg.t) (m : Z) :
  0 <= m < len (LogMsg.Message msg) ->
  forall fuel st,
    Logger.msgLen (fst st) = m ->
    exists st',
      splitLoop fuel msg st = Running st'
      /\ List.length (snd st') = (List.length (snd st) + fuel)%nat.
Proof.
  intros Hm. induction fuel as [|f IH]; intros st Hst; cbn [splitLoop]; rewrite Hst.
  - destruct (Z.gtb_spec (len (LogMsg.Message msg)) m); [|lia].
    exists st; split; [reflexivity | lia].
  - destruct (Z.gtb_spec (len (LogMsg.Message msg)) m); [|lia].
    destruct (splitBody_keeps_msg msg st) as (part & ->); [rewrite Hst; exact Hm|].
    destruct (IH (write_line (Marshal (LogMsg.set_Message msg part) ++ newline) st))
      as (st' & -> & Hlen); [rewrite msgLen_write_line; exact Hst|].
    exists st'; split; [reflexivity|].
    rewrite Hlen, stdout_write_line, length_app. simpl. lia.
Qed.

(** C1.  A record that passes the level filter and whose message is longer
    than the threshold and holds no newline is never split into
    ceil(len/threshold) lines: the loop of [printMessage] stores the rest of
    the text in the copy [msgPart], so after any number [fuel] of iterations
    it is still running and has written [fuel] copies of the line of the
    first [msgLen] bytes. *)
Theorem printMessage_long_message_repeats_first_fragment :
  forall (fuel : nat) (msg : LogMsg.t) (st : Logger.t * Sink),
    Logger.Level (fst st) <= LogMsg.Level msg ->
    0 <= Logger.msgLen (fst st) < len (LogMsg.Message msg) ->
    strings.Index (LogMsg.Message msg) newline = -1 ->
    printMessage fuel msg st
    = Running
        (Nat.iter fuel
           (write_line
              (Marshal
                 (LogMsg.set_Message msg
                    (take (Z.to_nat (Logger.msgLen (fst st))) (LogMsg.Message msg)))
                 ++ newline)) st).
Proof.
  intros fuel msg st Hlevel Hm Hnl. unfold printMessage.
  destruct (Z.ltb_spec (LogMsg.Level msg) (Logger.Level (fst st))); [lia|].
  now apply splitLoop_hard_cut_runs.
Qed.

Lemma printMessage_long_message_repeats_first_fragment_witness :
  printMessage 3 (sample_msg InfoLevel "hello world this is long") (sample_logger, [])
  = Running
      (Nat.iter 3
         (write_line (Marshal (sample_msg InfoLevel "hello worl") ++ newline))
         (sample_logger, [])).
Proof.
  apply (printMessage_long_message_repeats_first_fragment 3
           (sample_msg InfoLevel "hello world this is long") (sample_logger, [])).
  - vm_compute. discriminate.
  - vm_compute. split; [discriminate | reflexivity].
  - vm_compute. reflexivity.
Defined.

(** C2.  The splitting step does not terminate for a record that passes
    the filter and is longer than the threshold: the loop condition reads
    [msg.Message], which the loop never changes.  With a threshold of zero
    or more the loop is still running after any number of iterations and
    has written one line in each; with a negative threshold its first
    iteration panics on the slice bound. *)
Theorem printMessage_split_loop_never_exits :
  forall (fuel : nat) (msg : LogMsg.t) (st : Logger.t * Sink),
    Logger.Level (fst st) <= LogMsg.Level msg ->
    Logger.msgLen (fst st) < len (LogMsg.Message msg) ->
    (0 <= Logger.msgLen (fst st) ->
     exists st',
       printMessage fuel msg st = Running st'
       /\ List.length (snd st') = (List.length (snd st) + fuel)%nat)
    /\ (Logger.msgLen (fst st) < 0 ->
        printMessage (S fuel) msg st = Panicked SliceBounds).
Proof.
  intros fuel msg st Hlevel Hlen. unfold printMessage.
  destruct (Z.ltb_spec (LogMsg.Level msg) (Logger.Level (fst st))); [lia|].
  split; intros Hm.
  - apply (splitLoop_runs msg (Logger.msgLen (fst st))); [lia | reflexivity].
  - cbn [splitLoop].
    destruct (Z.gtb_spec (len (LogMsg.Message msg)) (Logger.msgLen (fst st))); [|lia].
    now rewrite splitBody_negative.
Qed.

Lemma printMessage_split_loop_never_exits_witness :
  exists st',
    printMessage 7
      (sample_msg InfoLevel ("ab" ++ newline ++ "cd" ++ newline ++ "efghijklmnop"))
      (sample_logger, []) = Running st'
    /\ List.length (snd st') = 7%nat.
Proof.
  apply (printMessage_split_loop_never_exits 7
           (sample_msg InfoLevel ("ab" ++ newline ++ "cd" ++ newline ++ "efghijklmnop"))
           (sample_logger, [])).
  - vm_compute. discriminate.
  - vm_compute. reflexivity.
  - vm_compute. discriminate.
Defined.

(** C5.  A record whose level is strictly below the level of the handle is
    dropped: [printMessage] returns at once and leaves standard output and
    every registered writer as they were, and so does the goroutine that
    holds such a record. *)
Theorem printMessage_drops_below_level :
  forall (fuel : nat) (msg : LogMsg.t) (l : Logger.t) (out : Sink),
    LogMsg.Level msg < Logger.Level l ->
    printMessage fuel msg (l, out) = Returned (l, out)
    /\ exists r,
        work fuel {| logger := l; routine := Holding msg; Stdout := out |}
        = Returned {| logger := l; routine := r; Stdout := out |}.
Proof.
  intros fuel msg l out Hlt.
  assert (E : printMessage fuel msg (l, out) = Returned (l, out)).
  { unfold printMessage. cbn [fst].
    destruct (Z.ltb_spec (LogMsg.Level msg) (Logger.Level l)); [reflexivity | lia]. }
  split; [exact E|].
  unfold work. cbn [routine logger Stdout]. rewrite E. eauto.
Qed.

Lemma printMessage_drops_below_level_witness :
  printMessage 5 (sample_msg DebugLevel "x")
    (Logger.mk "svc" EmptyString make_chan WarningLevel [[]; []] make_chan 8000, [])
  = Returned (Logger.mk "svc" EmptyString make_chan WarningLevel [[]; []] make_chan 8000, []).
Proof.
  apply (printMessage_drops_below_level 5 (sample_msg DebugLevel "x")
           (Logger.mk "svc" EmptyString make_chan WarningLevel [[]; []] make_chan 8000) []).
  vm_compute. reflexivity.
Defined.

(** ** The handle: stopping and logging *)

Lemma splitBody_output (msg msg' : LogMsg.t) (st st' : Logger.t * Sink) :
  splitBody msg st = Ok (msg', st') ->
  Logger.output (fst st') = Logger.output (fst st)
  /\ Logger.stop (fst st') = Logger.stop (fst st).
Proof.
  unfold splitBody.
  destruct (lastNewline _ _ _ _ _) as [index| |]; try discriminate.
  destruct (cut _ _ _) as [[part rest]| |]; try discriminate.
  intros H; injection H as <- <-. destruct st as [l out]; split; reflexivity.
Qed.

Lemma splitLoop_output (fuel : nat) :
  forall msg st st',
    splitLoop fuel msg st = Returned st' \/ splitLoop fuel msg st = Running st' ->
    Logger.output (fst st') = Logger.output (fst st)
    /\ Logger.stop (fst st') = Logger.stop (fst st).
Proof.
  induction fuel as [|f IH]; intros msg st st'; cbn [splitLoop];
    destruct (len (LogMsg.Message msg) >? Logger.msgLen (fst st)).
  - intros [H|H]; [discriminate|]. injection H as <-. split; reflexivity.
  - intros [H|H]; [|discriminate]. injection H as <-.
    destruct st as [l out]; split; reflexivity.
  - destruct (splitBody msg st) as [[m st1]| |] eqn:E.
    + intros H. apply IH in H. apply splitBody_output in E.
      destruct H as [-> ->]. exact E.
    + intros [H|H]; discriminate.
    + intros [H|H]; [discriminate|]. injection H as <-. split; reflexivity.
  - intros [H|H]; [|discriminate]. injection H as <-.
    destruct st as [l out]; split; reflexivity.
Qed.

Lemma printMessage_output (fuel : nat) (msg : LogMsg.t) (st st' : Logger.t * Sink) :
  printMessage fuel msg st = Returned st' \/ printMessage fuel msg st = Running st' ->
  Logger.output (fst st') = Logger.output (fst st)
  /\ Logger.stop (fst st') = Logger.stop (fst st).
Proof.
  unfold printMessage. destruct (LogMsg.Level msg <? Logger.Level (fst st)).
  - intros [H|H]; [|discriminate]. injection H as <-. split; reflexivity.
  - apply splitLoop_output.
Qed.

(** The goroutine never touches the two channels of its logger. *)
Lemma work_channels (fuel : nat) (p q : Process) :
  work fuel p = Returned q ->
  Logger.output (logger q) = Logger.output (logger p)
  /\ Logger.stop (logger q) = Logger.stop (logger p).
Proof.
  unfold work. destruct (routine p) as [|msg| |].
  - intros H; injection H as <-. split; reflexivity.
  - destruct (printMessage fuel msg (logger p, Stdout p)) as [[l out]| |[l out]|] eqn:E;
      try discriminate.
    intros H; injection H as <-. cbn [logger].
    exact (printMessage_output fuel msg (logger p, Stdout p) (l, out) (or_introl E)).
  - intros H; injection H as <-. split; reflexivity.
  - intros H; injection H as <-. split; reflexivity.
Qed.

Lemma Stop_closes_output (p p' : Process) :
  Stop p = Returned p' -> closed (Logger.output (logger p')) = true.
Proof.
  unfold Stop, close_chan. destruct (closed (Logger.output (logger p))); [discriminate|].
  intros H; injection H as <-. reflexivity.
Qed.

Lemma StopSync_closes_output (fuel : nat) (p p' : Process) :
  StopSync fuel p = Returned p' -> closed (Logger.output (logger p')) = true.
Proof.
  unfold StopSync. destruct (Stop p) as [p1| | |] eqn:E1; try discriminate.
  apply Stop_closes_output in E1.
  destruct (receive_stop fuel p1) as [p2| | |] eqn:E2; try discriminate.
  assert (E : Logger.output (logger p2) = Logger.output (logger p1)).
  { revert E2. unfold receive_stop. destruct (closed (Logger.stop (logger p1))).
    - intros H; injection H as <-. reflexivity.
    - destruct (work fuel p1) as [q| | |] eqn:Ew; try discriminate.
      apply work_channels in Ew. destruct (routine q); try discriminate.
      intros H; injection H as <-. cbn [logger]. apply Ew. }
  unfold close_chan. destruct (closed (Logger.stop (logger p2))); [discriminate|].
  intros H; injection H as <-. cbn [logger]. destruct (logger p2); cbn in *.
  now rewrite E.
Qed.

Lemma StopSync_on_closed (fuel : nat) (p : Process) :
  closed (Logger.output (logger p)) = true -> StopSync fuel p = Panicked CloseOfClosed.
Proof. intros H. unfold StopSync, Stop, close_chan. now rewrite H. Qed.

Lemma send_on_closed (fuel : nat) (p : Process) (msg : LogMsg.t) :
  closed (Logger.output (logger p)) = true -> send fuel p msg = Panicked SendOnClosed.
Proof. intros H. unfold send. now rewrite H. Qed.

(** C3.  On a handle whose [Stop] or [StopSync] has returned, a call of
    [StopSync] is no no-op: its first statement closes the channel
    [output] a second time, and the call panics. *)
Theorem StopSync_second_call_panics :
  forall (fuel0 fuel : nat) (p p' : Process),
    StopSync fuel0 p = Returned p' \/ Stop p = Returned p' ->
    StopSync fuel p' = Panicked CloseOfClosed.
Proof.
  intros fuel0 fuel p p' [H|H]; apply StopSync_on_closed.
  - exact (StopSync_closes_output fuel0 p p' H).
  - exact (Stop_closes_output p p' H).
Qed.

Lemma StopSync_second_call_panics_witness :
  exists p',
    StopSync 1 sample_process = Returned p'
    /\ StopSync 1 p' = Panicked CloseOfClosed.
Proof.
  eexists. split; [vm_compute; reflexivity|].
  eapply (StopSync_second_call_panics 1 1 sample_process).
  left. vm_compute. reflexivity.
Defined.

(** The singleton guards the same calls with its nil test: a second
    [StopSyncSingle] returns and changes nothing. *)
Lemma StopSyncSingle_twice (fuel0 fuel : nat) (g g' : Package) :
  StopSyncSingle fuel0 g = Returned g' -> StopSyncSingle fuel g' = Returned g'.
Proof.
  unfold StopSyncSingle, reset_single.
  destruct (on_single (StopSync fuel0) g) as [h| | |]; try discriminate.
  intros H; injection H as <-. reflexivity.
Qed.

(** C4.  On a handle whose [Stop] or [StopSync] has returned, every
    leveled log call panics: [log] sends the record on the channel
    [output], which is closed. *)
Theorem log_after_stop_panics :
  forall (value : Type) (withOperands : string -> list value -> string)
         (fuel0 fuel : nat) (p p' : Process) (site : Site)
         (format : string) (values : list value),
    Stop p = Returned p' \/ StopSync fuel0 p = Returned p' ->
    (forall level,
        log value withOperands fuel p' site level format values = Panicked SendOnClosed)
    /\ Debug value withOperands fuel p' site format values = Panicked SendOnClosed
    /\ Info value withOperands fuel p' site format values = Panicked SendOnClosed
    /\ Warning value withOperands fuel p' site format values = Panicked SendOnClosed
    /\ Error value withOperands fuel p' site format values = Panicked SendOnClosed.
Proof.
  intros value withOperands fuel0 fuel p p' site format values H.
  assert (Hc : closed (Logger.output (logger p')) = true).
  { destruct H as [H|H];
      [exact (Stop_closes_output p p' H) | exact (StopSync_closes_output fuel0 p p' H)]. }
  assert (Hlog : forall level,
             log value withOperands fuel p' site level format values
             = Panicked SendOnClosed).
  { intros level. unfold log. now apply send_on_closed. }
  unfold Debug, Info, Warning, Error. repeat split; try apply Hlog.
Qed.

Lemma log_after_stop_panics_witness :
  exists p',
    Stop sample_process = Returned p'
    /\ Info unit (fun f _ => f) 1 p' sample_site "after stop" [] = Panicked SendOnClosed.
Proof.
  eexists. split; [vm_compute; reflexivity|].
  eapply (log_after_stop_panics unit (fun f _ => f) 1 1 sample_process).
  left. vm_compute. reflexivity.
Defined.

(** The package-level calls are guarded by the nil test: after
    [StopSingle] a log call returns and changes nothing. *)
Lemma single_log_after_StopSingle
      (value : Type) (withOperands : string -> list value -> string)
      (fuel : nat) (g g' : Package) (site : Site)
      (level : LogLevel) (format : string) (values : list value) :
  StopSingle g = Returned g' ->
  single_log value withOperands fuel g' site level format values = Returned g'.
Proof.
  unfold StopSingle, reset_single.
  destruct (on_single Stop g) as [h| | |]; try discriminate.
  intros H; injection H as <-. reflexivity.
Qed.

(** ** The writer adapters *)

Lemma send_returns (fuel : nat) (p : Process) (msg : LogMsg.t) :
  closed (Logger.output (logger p)) = false ->
  routine p = Receiving ->
  send fuel p msg
  = Returned {| logger := logger p; routine := Holding msg; Stdout := Stdout p |}.
Proof.
  intros Hc Hr. unfold send, work. rewrite Hc, Hr. reflexivity.
Qed.



Lemma Index_lower_bound (s substr : string) : -1 <= strings.Index s substr.
Proof.
  induction s as [|c s IH]; cbn [strings.Index].
  - destruct (String.prefix substr EmptyString); lia.
  - destruct (String.prefix substr (String c s)); [lia|].
    destruct (Z.eqb_spec (strings.Index s substr) (-1)); lia.
Qed.

Lemma directive_free (s : string) :
  strings.Index s "%" = -1 -> fmt.doPrintf 0 s = s.
Proof.
  induction s as [|c s IH]; [reflexivity|].
  cbn [strings.Index String.prefix fmt.doPrintf].
  destruct (Ascii.eqb_spec c "%") as [->|Hne].
  - destruct (Ascii.ascii_dec "%" "%"); [|contradiction].
    destruct (String.prefix EmptyString s) eqn:E; [discriminate|].
    destruct s; discriminate.
  - destruct (Ascii.ascii_dec "%" c) as [E|_]; [congruence|].
    pose proof (Index_lower_bound s "%") as Hlow.
    destruct (Z.eqb_spec (strings.Index s "%") (-1)) as [E|E]; [|intros; lia].
    intros _. now rewrite IH.
Qed.

(** A buffer without percent sign is forwarded as it is. *)
Lemma Write_plain_buffer
      (value : Type) (withOperands : string -> list value -> string)
      (fuel : nat) (p : Process) (site : Site) (writer : LogWriter) (buf : list ascii) :
  closed (Logger.output (logger p)) = false ->
  routine p = Receiving ->
  strings.Index (string_of_list_ascii buf) "%" = -1 ->
  exists q msg,
    Write value withOperands fuel p site writer buf
    = Returned (q, (Z.of_nat (List.length buf), None))
    /\ routine q = Holding msg
    /\ LogMsg.Level msg = level writer
    /\ LogMsg.Message msg = string_of_list_ascii buf.
Proof.
  intros Hc Hr Hpct. unfold Write, log. rewrite send_returns by assumption.
  cbn [and_return]. eexists; eexists; split; [reflexivity|].
  cbn [routine LogMsg.Level LogMsg.Message fmt.Sprintf].
  repeat split. now apply directive_free.
Qed.

(** C7.  [Write] passes the text of the buffer to [log] as the format, not
    as the message: the buffer "100%" written to the Info adapter reaches
    the goroutine as one Info record whose message is "100%!(NOVERB)", and
    that is the message field of the line the goroutine prints. *)
Theorem Write_formats_the_buffer :
  forall (value : Type) (withOperands : string -> list value -> string),
  exists q q' line,
    Write value withOperands 1 default_process sample_site InfoWriter
      (list_ascii_of_string "100%")
    = Returned (q, (4, None))
    /\ routine q = Holding (sample_msg InfoLevel "100%!(NOVERB)")
    /\ work 1 q = Returned q'
    /\ Stdout q' = [line]
    /\ message_fields [line] = [Some "100%!(NOVERB)"].
Proof.
  intros value withOperands.
  eexists; eexists; eexists.
  split; [vm_compute; reflexivity|].
  split; [vm_compute; reflexivity|].
  split; [vm_compute; reflexivity|].
  split; [vm_compute; reflexivity|].
  vm_compute. reflexivity.
Qed.

(** * Further properties *)

(** ** What [printMessage] writes *)

Lemma appended_nil (st : Logger.t * Sink) : appended [] st = st.
Proof.
  destruct st as [[m i o lv ws sp ml] out]. unfold appended, Logger.set_writers.
  cbn [fst snd Logger.module Logger.id Logger.output Logger.Level Logger.writers
       Logger.stop Logger.msgLen].
  apply pair_equal_spec; split; [f_equal | apply app_nil_r].
  induction ws as [|w ws IH]; cbn [map]; [reflexivity|]. now rewrite app_nil_r, IH.
Qed.

Lemma appended_write_line (line : string) (lines : list string) (st : Logger.t * Sink) :
  appended lines (write_line line st) = appended (line :: lines) st.
Proof.
  destruct st as [[m i o lv ws sp ml] out]. unfold appended, write_line, Logger.set_writers.
  cbn [fst snd Logger.module Logger.id Logger.output Logger.Level Logger.writers
       Logger.stop Logger.msgLen].
  apply pair_equal_spec; split; [f_equal | now rewrite <- app_assoc].
  rewrite map_map. apply map_ext. intros w. now rewrite <- app_assoc.
Qed.

Lemma write_line_appended (line : string) (st : Logger.t * Sink) :
  write_line line st = appended [line] st.
Proof. now rewrite <- appended_write_line, appended_nil. Qed.

Lemma set_Message_same (msg : LogMsg.t) : LogMsg.set_Message msg (LogMsg.Message msg) = msg.
Proof. destruct msg; reflexivity. Qed.

Lemma splitBody_result (msg msg' : LogMsg.t) (st st' : Logger.t * Sink) :
  splitBody msg st = Ok (msg', st') ->
  msg' = msg
  /\ exists part, st' = write_line (line_of (LogMsg.set_Message msg part)) st.
Proof.
  unfold splitBody.
  destruct (lastNewline _ _ _ _ _) as [index| |]; try discriminate.
  destruct (cut _ _ _) as [[part rest]| |]; try discriminate.
  intros H; injection H as <- <-. split; [reflexivity|]. exists part; reflexivity.
Qed.

Lemma splitLoop_lines (fuel : nat) (msg : LogMsg.t) :
  forall st st',
    splitLoop fuel msg st = Returned st' \/ splitLoop fuel msg st = Running st' ->
    exists parts,
      st' = appended (map (fun part => line_of (LogMsg.set_Message msg part)) parts) st.
Proof.
  induction fuel as [|f IH]; intros st st'; cbn [splitLoop];
    destruct (len (LogMsg.Message msg) >? Logger.msgLen (fst st)).
  - intros [H|H]; [discriminate|]. injection H as <-. exists []. now rewrite appended_nil.
  - intros [H|H]; [|discriminate]. injection H as <-.
    exists [LogMsg.Message msg]. cbn [map]. rewrite set_Message_same.
    apply write_line_appended.
  - destruct (splitBody msg st) as [[m st1]| |] eqn:E.
    + apply splitBody_result in E. destruct E as [-> [part ->]].
      intros H. apply IH in H. destruct H as [parts ->].
      exists (part :: parts). cbn [map]. apply appended_write_line.
    + intros [H|H]; discriminate.
    + intros [H|H]; [discriminate|]. injection H as <-. exists []. now rewrite appended_nil.
  - intros [H|H]; [|discriminate]. injection H as <-.
    exists [LogMsg.Message msg]. cbn [map]. rewrite set_Message_same.
    apply write_line_appended.
Qed.

(** X1.  Whatever [printMessage] has written when it returns, or when it
    is still looping, went to standard output and to every writer alike:
    the same lines in the same order, each the line of the record with
    some text as its message; the rest of the logger is unchanged. *)
Theorem printMessage_fans_out_the_same_lines :
  forall (fuel : nat) (msg : LogMsg.t) (l : Logger.t) (out : Sink) (st' : Logger.t * Sink),
    printMessage fuel msg (l, out) = Returned st'
    \/ printMessage fuel msg (l, out) = Running st' ->
    exists parts,
      let lines := map (fun part => line_of (LogMsg.set_Message msg part)) parts in
      snd st' = (out ++ lines)%list
      /\ Logger.writers (fst st') = map (fun w => (w ++ lines)%list) (Logger.writers l)
      /\ fst st' = Logger.set_writers l (Logger.writers (fst st')).
Proof.
  intros fuel msg l out st' H. unfold printMessage in H. cbn [fst] in H.
  assert (E : exists parts,
             st' = appended (map (fun part => line_of (LogMsg.set_Message msg part)) parts)
                     (l, out)).
  { destruct (LogMsg.Level msg <? Logger.Level l).
    - destruct H as [H|H]; [|discriminate]. injection H as <-.
      exists []. now rewrite appended_nil.
    - now apply (splitLoop_lines fuel). }
  destruct E as [parts ->]. exists parts. cbn. repeat split.
Qed.

(** ** Every line is one line of JSON *)

Lemma no_control_app (s t : string) :
  no_control (s ++ t) = no_control s && no_control t.
Proof.
  induction s as [|c s IH]; cbn [append no_control]; [reflexivity|].
  now rewrite IH, andb_assoc.
Qed.

Lemma no_control_escape (c : ascii) :
  byte_val c < 128 -> json.htmlSafe (byte_val c) = false ->
  no_control (json.escape (byte_val c)) = true.
Proof.
  intros H128 Hsafe.
  destruct c as [[] [] [] [] [] [] [] []];
    try (exfalso; vm_compute in H128; discriminate H128);
    try (exfalso; vm_compute in Hsafe; discriminate Hsafe);
    reflexivity.
Qed.

Lemma htmlSafe_printable (b : Z) : json.htmlSafe b = true -> (32 <=? b) = true.
Proof. unfold json.htmlSafe. destruct (32 <=? b); [reflexivity | discriminate]. Qed.

Lemma no_control_rune (s : string) (r : Z) (size : nat) :
  utf8.DecodeRuneInString s = (r, size) ->
  (match s with String c _ => byte_val c <? utf8.RuneSelf | EmptyString => true end) = false ->
  no_control (take size s) = true.
Proof.
  intros H Hhigh.
  destruct s as [|c0 s]; [discriminate|].
  unfold utf8.DecodeRuneInString in H. rewrite Hhigh in H.
  unfold utf8.RuneSelf in Hhigh. apply Z.ltb_ge in Hhigh.
  assert (P : forall c, 128 <= byte_val c -> (32 <=? byte_val c) = true)
    by (intros c Hc; apply Z.leb_le; lia).
  destruct (utf8.first (byte_val c0)) as [[[sz lo] hi]|] eqn:Ef.
  2:{ apply pair_equal_spec in H. destruct H as [_ <-]. cbn [take no_control].
      now rewrite P. }
  apply first_ranges in Ef. destruct Ef as (Hlo & Hhi & _).
  destruct s as [|c1 s].
  { apply pair_equal_spec in H. destruct H as [_ <-]. cbn [take no_control]. now rewrite P. }
  destruct (Z.ltb_spec (byte_val c1) lo); destruct (Z.ltb_spec hi (byte_val c1));
    cbn [orb] in H;
    try (apply pair_equal_spec in H; destruct H as [_ <-]; cbn [take no_control];
         now rewrite P).
  destruct (sz <=? 2)%nat.
  { apply pair_equal_spec in H. destruct H as [_ <-]. cbn [take no_control].
    rewrite !P by lia. reflexivity. }
  destruct s as [|c2 s].
  { apply pair_equal_spec in H. destruct H as [_ <-]. cbn [take no_control]. now rewrite P. }
  destruct (utf8.cont (byte_val c2)) eqn:E2; cbn [negb] in H.
  2:{ apply pair_equal_spec in H. destruct H as [_ <-]. cbn [take no_control]. now rewrite P. }
  apply cont_range in E2.
  destruct (sz <=? 3)%nat.
  { apply pair_equal_spec in H. destruct H as [_ <-]. cbn [take no_control].
    rewrite !P by lia. reflexivity. }
  destruct s as [|c3 s].
  { apply pair_equal_spec in H. destruct H as [_ <-]. cbn [take no_control]. now rewrite P. }
  destruct (utf8.cont (byte_val c3)) eqn:E3; cbn [negb] in H.
  2:{ apply pair_equal_spec in H. destruct H as [_ <-]. cbn [take no_control]. now rewrite P. }
  apply cont_range in E3.
  apply pair_equal_spec in H. destruct H as [_ <-]. cbn [take no_control].
  rewrite !P by lia. reflexivity.
Qed.

Lemma no_control_encode (f : nat) : forall s, no_control (json.encode f s) = true.
Proof.
  induction f as [|f IH]; intros s; [destruct s; reflexivity|].
  destruct s as [|c s]; [reflexivity|].
  cbn [json.encode].
  destruct (byte_val c <? utf8.RuneSelf) eqn:E0.
  - rewrite no_control_app, IH, andb_true_r.
    destruct (json.htmlSafe (byte_val c)) eqn:Es.
    + cbn [no_control]. now rewrite htmlSafe_printable.
    + apply no_control_escape; [|exact Es].
      unfold utf8.RuneSelf in E0. now apply Z.ltb_lt.
  - destruct (utf8.DecodeRuneInString (String c s)) as [r size] eqn:Hd.
    destruct ((r =? utf8.RuneError) && (size =? 1)%nat).
    + rewrite !no_control_app, IH. reflexivity.
    + destruct ((r =? 8232) || (r =? 8233)) eqn:Hsep.
      * rewrite !no_control_app, IH.
        apply orb_prop in Hsep. destruct Hsep as [H|H]; apply Z.eqb_eq in H; subst r;
          reflexivity.
      * rewrite no_control_app, IH, andb_true_r.
        apply (no_control_rune _ r size Hd). exact E0.
Qed.

Lemma no_control_appendString (s : string) : no_control (json.appendString s) = true.
Proof.
  unfold json.appendString. rewrite !no_control_app, no_control_encode. reflexivity.
Qed.

Lemma no_control_number (s : string) : all_number s = true -> no_control s = true.
Proof.
  induction s as [|c s IH]; [reflexivity|].
  cbn [all_number no_control]. intros H. apply andb_prop in H. destruct H as [Hc Hs].
  rewrite IH by exact Hs. rewrite andb_true_r.
  unfold json.number_byte in Hc. apply Z.leb_le.
  destruct (Z.leb_spec 48 (byte_val c)); destruct (Z.leb_spec (byte_val c) 57);
    destruct (Z.eqb_spec (byte_val c) 45); cbn in Hc; try discriminate; lia.
Qed.

Lemma no_control_member (v : member) : no_control (member_text v) = true.
Proof.
  destruct v as [s|z|l]; cbn [member_text].
  - apply no_control_appendString.
  - apply no_control_number. apply Itoa_number.
  - apply no_control_appendString.
Qed.

Lemma no_control_members (l : list (string * member)) :
  no_control (members_text l) = true.
Proof.
  induction l as [|[k v] rest IH]; [reflexivity|].
  cbn [members_text]. rewrite !no_control_app, no_control_appendString, no_control_member.
  destruct rest; [exact IH|]. rewrite no_control_app, IH. reflexivity.
Qed.

Lemma no_control_no_newline (s : string) :
  no_control s = true -> strings.Index s newline = -1.
Proof.
  induction s as [|c s IH]; [reflexivity|].
  cbn [no_control]. intros H. apply andb_prop in H. destruct H as [Hc Hs].
  cbn [strings.Index]. rewrite (IH Hs).
  assert (E : String.prefix newline (String c s) = false).
  { unfold newline, ch. cbn [String.prefix].
    destruct (ascii_dec (byte_of 10) c) as [<-|]; [|reflexivity].
    rewrite byte_val_of in Hc by lia. discriminate. }
  rewrite E. reflexivity.
Qed.

(** X2.  The JSON text of a record holds no control byte, so no newline:
    with the newline that ends it, every write is exactly one line. *)
Theorem written_line_is_one_line :
  forall (m : LogMsg.t),
    no_control (Marshal m) = true
    /\ strings.Contains (Marshal m) newline = false
    /\ chomp (Marshal m ++ newline) = Marshal m.
Proof.
  intros m.
  assert (H : no_control (Marshal m) = true).
  { unfold Marshal. rewrite no_control_app, no_control_members. reflexivity. }
  split; [exact H|]. split; [|apply chomp_line].
  unfold strings.Contains. now rewrite no_control_no_newline.
Qed.

(** ** A line decodes to the record *)

Lemma ascii_only_app (s t : string) : ascii_only (s ++ t) = ascii_only s && ascii_only t.
Proof.
  induction s as [|c s IH]; cbn [append ascii_only]; [reflexivity|].
  now rewrite IH, andb_assoc.
Qed.

Lemma coerce_runes_ascii (f : nat) :
  forall s, ascii_only s = true -> (String.length s <= f)%nat -> json.coerce_runes f s = s.
Proof.
  induction f as [|f IH]; intros s Ha Hf.
  - destruct s; [reflexivity | cbn in Hf; lia].
  - destruct s as [|c s]; [reflexivity|].
    cbn [ascii_only] in Ha. apply andb_prop in Ha. destruct Ha as [Hc Hs].
    cbn [String.length] in Hf.
    cbn [json.coerce_runes utf8.DecodeRuneInString]. unfold utf8.RuneSelf. rewrite Hc.
    cbn [drop]. rewrite IH by (assumption || lia).
    unfold utf8.EncodeRune. pose proof (byte_val_range c). apply Z.ltb_lt in Hc.
    destruct (Z.leb_spec 0 (byte_val c)); [|lia].
    destruct (Z.leb_spec (byte_val c) 127); [|lia].
    cbn [andb]. now rewrite (ch_byte_val c).
Qed.

Lemma coerce_ascii (s : string) : ascii_only s = true -> json.coerce s = s.
Proof. intros H. apply coerce_runes_ascii; [exact H | lia]. Qed.

Lemma ascii_only_number (s : string) : all_number s = true -> ascii_only s = true.
Proof.
  induction s as [|c s IH]; [reflexivity|].
  cbn [all_number ascii_only]. intros H. apply andb_prop in H. destruct H as [Hc Hs].
  rewrite IH by exact Hs. rewrite andb_true_r.
  unfold json.number_byte in Hc. apply Z.ltb_lt.
  destruct (Z.leb_spec 48 (byte_val c)); destruct (Z.leb_spec (byte_val c) 57);
    destruct (Z.eqb_spec (byte_val c) 45); cbn in Hc; try discriminate; lia.
Qed.

Lemma ascii_only_LevelName (l : LogLevel) : ascii_only (LevelName l) = true.
Proof.
  unfold LevelName.
  repeat match goal with |- context [if ?c then _ else _] => destruct c end;
    try reflexivity.
  rewrite ascii_only_app, (ascii_only_number (strconv.Itoa l)) by apply Itoa_number.
  reflexivity.
Qed.

Lemma Unmarshal_Marshal (m : LogMsg.t) :
  json.Unmarshal (Marshal m)
  = Some (map decoded_member (map fst (filter written (fields m)))).
Proof.
  unfold Marshal, json.Unmarshal.
  cbn [append]. change (byte_val "{" =? 123) with true. cbv iota.
  apply members_decode; [discriminate | cbn [String.length]; lia].
Qed.

(** X3.  The line of a record decodes to the record: timestamp, message,
    service and the optional fields come back coerced to valid UTF-8, the
    level as its name; [service_id] and [src_file] are members exactly when
    the field is not empty, [src_line] exactly when it is not 0. *)
Theorem line_decodes_to_the_record :
  forall (m : LogMsg.t),
  exists o,
    json.Unmarshal (Marshal m) = Some o
    /\ json.field "timestamp" o = Some (json.Str (json.coerce (LogMsg.Timestamp m)))
    /\ json.field "level" o = Some (json.Str (LevelName (LogMsg.Level m)))
    /\ json.field "message" o = Some (json.Str (json.coerce (LogMsg.Message m)))
    /\ json.field "service" o = Some (json.Str (json.coerce (LogMsg.Module_ m)))
    /\ json.field "service_id" o
       = match LogMsg.ModuleId m with
         | EmptyString => None
         | i => Some (json.Str (json.coerce i))
         end
    /\ json.field "src_file" o
       = match LogMsg.SrcFile m with
         | EmptyString => None
         | f => Some (json.Str (json.coerce f))
         end
    /\ json.field "src_line" o
       = if LogMsg.SrcLine m =? 0 then None
         else Some (json.Num (strconv.Itoa (LogMsg.SrcLine m))).
Proof.
  intros m. eexists. split; [apply Unmarshal_Marshal|].
  pose proof (coerce_ascii _ (ascii_only_LevelName (LogMsg.Level m))) as Hlevel.
  destruct m as [ts lv msg md id file line].
  cbn [LogMsg.Timestamp LogMsg.Level LogMsg.Message LogMsg.Module_ LogMsg.ModuleId
       LogMsg.SrcFile LogMsg.SrcLine] in *.
  unfold fields.
  cbn [LogMsg.Timestamp LogMsg.Level LogMsg.Message LogMsg.Module_ LogMsg.ModuleId
       LogMsg.SrcFile LogMsg.SrcLine].
  destruct id as [|ic ir]; destruct file as [|fc fr]; destruct (line =? 0) eqn:El;
    cbn [filter]; unfold written; cbn [fst snd isEmptyValue andb negb];
    rewrite ?El; cbn [negb map fst]; unfold decoded_member; cbn [fst snd];
    rewrite Hlevel; repeat split; reflexivity.
Qed.

(** ** Where a long message is cut *)

Lemma byte_at_cons (c : ascii) (s : string) (j : Z) :
  1 <= j -> byte_at (String c s) j = byte_at s (j - 1).
Proof.
  intros H. unfold byte_at.
  destruct (Z.ltb_spec j 0); [lia|]. destruct (Z.ltb_spec (j - 1) 0); [lia|].
  replace (Z.to_nat j) with (S (Z.to_nat (j - 1))) by lia. reflexivity.
Qed.

Lemma byte_at_head (c : ascii) (s : string) : byte_at (String c s) 0 = Some c.
Proof. reflexivity. Qed.

Lemma byte_at_drop (s : string) (n j : Z) :
  0 <= n -> 0 <= j -> byte_at (drop (Z.to_nat n) s) j = byte_at s (n + j).
Proof.
  intros Hn Hj. unfold byte_at.
  destruct (Z.ltb_spec j 0); [lia|]. destruct (Z.ltb_spec (n + j) 0); [lia|].
  replace (Z.to_nat (n + j)) with (Z.to_nat n + Z.to_nat j)%nat by lia.
  generalize (Z.to_nat n) as k. generalize (Z.to_nat j) as i. clear.
  intros i k. revert s. induction k as [|k IH]; intros s; [reflexivity|].
  destruct s as [|c s]; cbn [drop Nat.add String.get]; [destruct i; reflexivity | apply IH].
Qed.

Lemma prefix_newline (c : ascii) (s : string) :
  String.prefix newline (String c s) = true <-> c = byte_of 10.
Proof.
  unfold newline, ch. cbn [String.prefix].
  destruct (ascii_dec (byte_of 10) c) as [E|E].
  - split; [auto | intros _; destruct s; reflexivity].
  - split; [discriminate | congruence].
Qed.

(** [strings.Index] finds the first newline. *)
Lemma Index_newline_first (s : string) :
  (strings.Index s newline = -1 -> forall j, ~ newline_at s j)
  /\ (strings.Index s newline <> -1 ->
      newline_at s (strings.Index s newline)
      /\ forall j, j < strings.Index s newline -> ~ newline_at s j).
Proof.
  induction s as [|c s [IHnone IHsome]].
  - split; [|intros H; exfalso; apply H; reflexivity].
    intros _ j. unfold newline_at, byte_at. destruct (j <? 0); [discriminate|].
    destruct (Z.to_nat j); discriminate.
  - cbn [strings.Index].
    destruct (String.prefix newline (String c s)) eqn:Ep.
    + apply prefix_newline in Ep. subst c.
      split; [discriminate|]. intros _. split; [reflexivity|].
      intros j Hj. unfold newline_at, byte_at.
      destruct (Z.ltb_spec j 0); [discriminate | lia].
    + assert (Hc : c <> byte_of 10).
      { intros E. apply (proj2 (prefix_newline c s)) in E. congruence. }
      pose proof (Index_lower_bound s newline) as Hlow.
      assert (Hat : forall j, newline_at (String c s) j -> 1 <= j /\ newline_at s (j - 1)).
      { intros j Hj. unfold newline_at in *.
        destruct (Z.lt_ge_cases j 0) as [Hneg|Hpos].
        - unfold byte_at in Hj. destruct (Z.ltb_spec j 0); [discriminate | lia].
        - destruct (Z.eq_dec j 0) as [->|Hnz].
          + rewrite byte_at_head in Hj. congruence.
          + rewrite byte_at_cons in Hj by lia. split; [lia | exact Hj]. }
      destruct (Z.eqb_spec (strings.Index s newline) (-1)) as [E|E].
      * split; [|intros H; exfalso; apply H; reflexivity].
        intros _ j Hj. apply Hat in Hj. destruct Hj as [_ Hj]. exact (IHnone E _ Hj).
      * split; [lia|]. intros _. destruct (IHsome E) as [Hi Hbefore]. split.
        -- unfold newline_at. rewrite byte_at_cons by lia.
           replace (strings.Index s newline + 1 - 1) with (strings.Index s newline) by lia.
           exact Hi.
        -- intros j Hj Hn. apply Hat in Hn. destruct Hn as [H1 Hn].
           apply (Hbefore (j - 1)); [lia | exact Hn].
Qed.

Lemma newline_at_nonneg (s : string) (j : Z) : newline_at s j -> 0 <= j.
Proof.
  unfold newline_at, byte_at. destruct (Z.ltb_spec j 0); [discriminate | lia].
Qed.

Lemma found_index (text : string) (msgLen index : Z) :
  index = -1 \/ (index <= msgLen /\ newline_at text index) ->
  index = -1 \/ (0 <= index <= msgLen /\ newline_at text index).
Proof.
  intros [->|[H1 H2]]; [left; reflexivity | right].
  pose proof (newline_at_nonneg _ _ H2). auto.
Qed.

(** The inner loop: from a newline at [i] with none between [index] and
    [i], it ends at the last newline at or before [msgLen]. *)
Lemma lastNewline_last (fuel : nat) (text : string) (msgLen : Z) :
  forall index i,
    -1 <= index ->
    (index = -1 \/ (index <= msgLen /\ newline_at text index)) ->
    (i = -1 -> forall j, index < j -> ~ newline_at text j) ->
    (i <> -1 ->
     index < i < len text /\ newline_at text i
     /\ (forall j, index < j < i -> ~ newline_at text j)
     /\ len text - i < Z.of_nat fuel) ->
    exists r,
      lastNewline fuel text msgLen index i = Ok r
      /\ (r = -1 \/ (0 <= r <= msgLen /\ newline_at text r))
      /\ forall j, r < j <= msgLen -> ~ newline_at text j.
Proof.
  induction fuel as [|f IH]; intros index i Hlow Hindex Hnone Hsome.
  - destruct (Z.eq_dec i (-1)) as [->|Hne]; [|destruct (Hsome Hne) as (? & _ & _ & ?); lia].
    exists index. rewrite lastNewline_none. split; [reflexivity|]. split.
    + now apply found_index.
    + intros j Hj. apply Hnone; [reflexivity | lia].
  - cbn [lastNewline].
    destruct (Z.eqb_spec i (-1)) as [->|Hne]; cbn [negb andb].
    + exists index. split; [reflexivity|]. split.
      * now apply found_index.
      * intros j Hj. apply Hnone; [reflexivity | lia].
    + destruct (Hsome Hne) as (Hi & Hat & Hbetween & Hf).
      destruct (Z.leb_spec i msgLen) as [Hle|Hgt].
      * rewrite slice_from_ok by lia.
        set (rest := drop (Z.to_nat (i + 1)) text).
        destruct (Index_newline_first rest) as [Hrn Hrs].
        pose proof (Index_newline_range rest) as Hrange.
        assert (Hlen : len rest = len text - (i + 1)).
        { unfold rest, len. rewrite length_drop. unfold len in Hi. lia. }
        assert (Hshift : forall k, 0 <= k -> newline_at rest k <-> newline_at text (i + 1 + k)).
        { intros k Hk. unfold newline_at, rest. rewrite byte_at_drop by lia. reflexivity. }
        destruct (Z.eqb_spec (strings.Index rest newline) (-1)) as [E|E].
        -- exists i. split; [reflexivity|]. split; [right; split; [lia | exact Hat]|].
           intros j Hj Hn. apply (Hrn E (j - (i + 1))).
           apply Hshift; [lia|]. replace (i + 1 + (j - (i + 1))) with j by lia. exact Hn.
        -- destruct (Hrs E) as [Hri Hrb].
           destruct Hrange as [Hr|Hr]; [contradiction|].
           apply IH.
           ++ lia.
           ++ right. split; [exact Hle | exact Hat].
           ++ intros Hc. lia.
           ++ intros _. split; [lia|]. split.
              ** apply Hshift in Hri; [|lia].
                 replace (strings.Index rest newline + i + 1)
                   with (i + 1 + strings.Index rest newline) by lia. exact Hri.
              ** split; [|lia]. intros j Hj Hn.
                 apply (Hrb (j - (i + 1))); [lia|].
                 apply Hshift; [lia|].
                 replace (i + 1 + (j - (i + 1))) with j by lia. exact Hn.
      * exists index. split; [reflexivity|]. split.
        -- now apply found_index.
        -- intros j Hj. apply Hbetween. lia.
Qed.

Lemma lastNewline_spec :
  forall (text : string) (msgLen : Z),
  exists r,
    lastNewline (S (String.length text)) text msgLen (-1) (strings.Index text newline)
    = Ok r
    /\ (r = -1 \/ (0 <= r <= msgLen /\ newline_at text r))
    /\ forall j, r < j <= msgLen -> ~ newline_at text j.
Proof.
  intros text msgLen.
  destruct (Index_newline_first text) as [Hnone Hsome].
  apply lastNewline_last.
  - lia.
  - left; reflexivity.
  - intros E j _. now apply Hnone.
  - intros E. destruct (Hsome E) as [Hat Hbefore].
    destruct (Index_newline_range text) as [Hr|Hr]; [contradiction|].
    split; [lia|]. split; [exact Hat|]. split.
    + intros j Hj. apply Hbefore. lia.
    + unfold len in *. lia.
Qed.

Lemma len_take (text : string) (n : Z) : 0 <= n <= len text -> len (take (Z.to_nat n) text) = n.
Proof. intros H. unfold len in *. rewrite length_take by lia. lia. Qed.

(** X4.  The inner loop of [printMessage] returns the position of the last
    newline at an offset of at most [msgLen], or -1 when there is none. *)
Theorem lastNewline_finds_the_last_newline_in_reach :
  forall (text : string) (msgLen : Z),
  exists r,
    lastNewline (S (String.length text)) text msgLen (-1) (strings.Index text newline)
    = Ok r
    /\ (r = -1 \/ (0 <= r <= msgLen /\ newline_at text r))
    /\ forall j, r < j <= msgLen -> ~ newline_at text j.
Proof. exact lastNewline_spec. Qed.

Lemma split_at_byte (s : string) (c : ascii) :
  forall n, String.get n s = Some c -> s = take n s ++ String c (drop (S n) s).
Proof.
  induction s as [|d s IH]; intros [|n] H; cbn in H; try discriminate.
  - injection H as ->. reflexivity.
  - cbn [take drop append]. f_equal. now apply IH.
Qed.

(** X5.  One iteration of the outer loop, on a message longer than a
    threshold of zero or more: the fragment written is never longer than
    the threshold; it ends before the last newline at or before the
    threshold when there is one, which is dropped, and is the first
    [msgLen] bytes otherwise. *)
Theorem splitBody_cuts_at_newline_or_threshold :
  forall (msg : LogMsg.t) (st : Logger.t * Sink),
    0 <= Logger.msgLen (fst st) < len (LogMsg.Message msg) ->
    exists part rest,
      splitBody msg st
      = Ok (msg, write_line (Marshal (LogMsg.set_Message msg part) ++ newline) st)
      /\ len part <= Logger.msgLen (fst st)
      /\ ((LogMsg.Message msg = part ++ rest
           /\ len part = Logger.msgLen (fst st)
           /\ forall j, j <= Logger.msgLen (fst st) -> ~ newline_at (LogMsg.Message msg) j)
          \/ (LogMsg.Message msg = part ++ newline ++ rest
              /\ forall j, len part < j <= Logger.msgLen (fst st) ->
                           ~ newline_at (LogMsg.Message msg) j)).
Proof.
  intros msg st Hm. unfold splitBody.
  destruct (lastNewline_spec (LogMsg.Message msg) (Logger.msgLen (fst st)))
    as (r & -> & Hr & Hafter).
  unfold cut. destruct (Z.eqb_spec r (-1)) as [->|Hne].
  - rewrite slice_to_ok, slice_from_ok by lia.
    eexists; eexists. split; [reflexivity|].
    rewrite len_take by lia. split; [lia|]. left.
    split; [symmetry; apply take_drop|]. split; [reflexivity|].
    intros j Hj Hn. pose proof (newline_at_nonneg _ _ Hn).
    apply (Hafter j); [lia | exact Hn].
  - destruct Hr as [Hr|[Hr Hat]]; [contradiction|].
    rewrite slice_to_ok, slice_from_ok by lia.
    eexists; eexists. split; [reflexivity|].
    rewrite len_take by lia. split; [lia|]. right. split; [|exact Hafter].
    unfold newline_at, byte_at in Hat. destruct (Z.ltb_spec r 0); [lia|].
    replace (Z.to_nat (r + 1)) with (S (Z.to_nat r)) by lia.
    now apply split_at_byte.
Qed.

(** ** Delivery: log calls, the goroutine and the stop calls *)

Lemma appended_appended (l1 l2 : list string) (st : Logger.t * Sink) :
  appended l2 (appended l1 st) = appended (l1 ++ l2) st.
Proof.
  revert st. induction l1 as [|x l1 IH]; intros st; [now rewrite appended_nil|].
  cbn [app]. rewrite <- !appended_write_line. apply IH.
Qed.

Lemma printMessage_short_delivered (fuel : nat) (m : LogMsg.t) (st : Logger.t * Sink) :
  short (fst st) m ->
  printMessage fuel m st = Returned (appended (delivered (fst st) [m]) st).
Proof.
  intros Hs. unfold delivered, passes. cbn [filter].
  destruct (Z.ltb_spec (LogMsg.Level m) (Logger.Level (fst st))) as [Hlt|Hge]; cbn [negb map].
  - rewrite appended_nil. unfold printMessage.
    destruct (Z.ltb_spec (LogMsg.Level m) (Logger.Level (fst st))); [reflexivity | lia].
  - rewrite printMessage_short by (assumption || lia). now rewrite write_line_appended.
Qed.

Lemma work_live (fuel : nat) (p : Process) :
  (routine p = Receiving \/ exists m, routine p = Holding m /\ short (logger p) m) ->
  exists q,
    work fuel p = Returned q
    /\ (logger q, Stdout q)
       = appended (delivered (logger p) (holding p)) (logger p, Stdout p)
    /\ routine q = (if closed (Logger.output (logger p)) then Signalling else Receiving).
Proof.
  intros [Hr | (m & Hr & Hs)]; unfold work, holding; rewrite Hr.
  - eexists. split; [reflexivity|]. cbn [logger Stdout routine delivered filter map].
    rewrite appended_nil. auto.
  - rewrite (printMessage_short_delivered fuel m (logger p, Stdout p)) by exact Hs.
    destruct (appended (delivered (fst (logger p, Stdout p)) [m]) (logger p, Stdout p))
      as [l out] eqn:E.
    eexists. split; [reflexivity|]. cbn [logger Stdout routine]. cbn [fst] in E.
    rewrite E. auto.
Qed.

Lemma delivered_app (l : Logger.t) (a b : list LogMsg.t) :
  delivered l (a ++ b) = (delivered l a ++ delivered l b)%list.
Proof. unfold delivered. now rewrite filter_app, map_app. Qed.

Lemma delivered_set_writers (l : Logger.t) (ws : list Sink) (ms : list LogMsg.t) :
  delivered (Logger.set_writers l ws) ms = delivered l ms.
Proof. reflexivity. Qed.

Lemma logger_of_appended (p q : Process) (L : list string) :
  (logger q, Stdout q) = appended L (logger p, Stdout p) ->
  logger q
  = Logger.set_writers (logger p)
      (map (fun w => (w ++ L)%list) (Logger.writers (logger p)))
  /\ Stdout q = (Stdout p ++ L)%list.
Proof. unfold appended. cbn [fst snd]. intros H. injection H as -> ->. auto. Qed.

Section Delivery.
Variable value : Type.
Variable withOperands : string -> list value -> string.

Lemma log_live (fuel : nat) (p : Process) (c : Call value) :
  live p ->
  exists q,
    log value withOperands fuel p (call_site value c) (call_level value c)
      (call_format value c) (call_values value c) = Returned q
    /\ (logger q, Stdout q)
       = appended (delivered (logger p) (holding p)) (logger p, Stdout p)
    /\ routine q = Holding (record_of value withOperands (logger p) c).
Proof.
  intros [Hopen Hr]. unfold log, send. rewrite Hopen.
  destruct (work_live fuel p Hr) as (q0 & -> & Hq0 & Hrout).
  rewrite Hopen in Hrout. rewrite Hrout.
  eexists. split; [reflexivity|]. cbn [logger Stdout routine]. split; [exact Hq0|].
  reflexivity.
Qed.

Lemma log_all_live (fuel : nat) (calls : list (Call value)) :
  forall p,
    live p ->
    Forall (fun c => short (logger p) (record_of value withOperands (logger p) c)) calls ->
    exists q L,
      log_all value withOperands fuel p calls = Returned q
      /\ (logger q, Stdout q) = appended L (logger p, Stdout p)
      /\ live q
      /\ (L ++ delivered (logger p) (holding q))%list
         = delivered (logger p)
             (holding p ++ map (record_of value withOperands (logger p)) calls).
Proof.
  induction calls as [|c rest IH]; intros p Hlive Hshort.
  - exists p, []. cbn [log_all map]. rewrite appended_nil, app_nil_r. auto.
  - cbn [log_all]. inversion Hshort as [|c' rest' Hc Hrest]; subst.
    destruct (log_live fuel p c Hlive) as (q1 & -> & Hq1 & Hr1).
    destruct (logger_of_appended _ _ _ Hq1) as [Hl1 Hout1].
    assert (Hlive1 : live q1).
    { destruct Hlive as [Hopen _]. split.
      - rewrite Hl1. exact Hopen.
      - right. eexists. split; [exact Hr1|]. rewrite Hl1. exact Hc. }
    destruct (IH q1 Hlive1) as (q & L1 & -> & Hq & Hliveq & HL).
    { rewrite Hl1. exact Hrest. }
    exists q, (delivered (logger p) (holding p) ++ L1)%list.
    split; [reflexivity|]. split.
    + rewrite Hq, Hq1. apply appended_appended.
    + split; [exact Hliveq|].
      rewrite <- app_assoc.
      assert (Hd : forall ms, delivered (logger q1) ms = delivered (logger p) ms)
        by (intros ms; rewrite Hl1; reflexivity).
      assert (Hrec : forall c0, record_of value withOperands (logger q1) c0
                                = record_of value withOperands (logger p) c0)
        by (intros c0; rewrite Hl1; reflexivity).
      rewrite !Hd, (map_ext _ _ Hrec) in HL.
      rewrite HL.
      replace (holding q1) with [record_of value withOperands (logger p) c]
        by (unfold holding; now rewrite Hr1).
      cbn [map]. rewrite !delivered_app. f_equal.
      symmetry. apply (delivered_app (logger p) [_] _).
Qed.

End Delivery.

Lemma StopSync_live (fuel : nat) (p : Process) :
  live p ->
  closed (Logger.stop (logger p)) = false ->
  exists r,
    StopSync fuel p = Returned r
    /\ Stdout r = (Stdout p ++ delivered (logger p) (holding p))%list
    /\ logger r
       = Logger.mk (Logger.module (logger p)) (Logger.id (logger p))
           {| closed := true |} (Logger.Level (logger p))
           (map (fun w => (w ++ delivered (logger p) (holding p))%list)
              (Logger.writers (logger p)))
           {| closed := true |} (Logger.msgLen (logger p))
    /\ routine r = Exited.
Proof.
  intros [Hopen Hr] Hstop.
  unfold StopSync, Stop, close_chan. rewrite Hopen.
  set (p1 := {| logger := Logger.set_output (logger p) {| closed := true |};
                routine := routine p; Stdout := Stdout p |}).
  unfold receive_stop.
  replace (closed (Logger.stop (logger p1))) with false by (symmetry; exact Hstop).
  destruct (work_live fuel p1) as (q & -> & Hq & Hrout).
  { exact Hr. }
  cbn [p1 logger closed Logger.output Logger.set_output] in Hrout. rewrite Hrout.
  destruct (logger_of_appended _ _ _ Hq) as [Hl Hout].
  cbn [logger Stdout routine].
  replace (closed (Logger.stop (logger q))) with false
    by (rewrite Hl; symmetry; exact Hstop).
  eexists. split; [reflexivity|]. cbn [logger Stdout routine].
  split; [exact Hout|]. split; [|reflexivity].
  rewrite Hl. reflexivity.
Qed.

Section Extras.
Variable value : Type.
Variable withOperands : string -> list value -> string.

(** X6.  Records that need no splitting, logged one after the other on a
    fresh handle, are all written by the time [StopSync] returns: the lines
    of the records that pass the level filter, in the order of the calls,
    on standard output and on every writer; the goroutine has exited and
    both channels are closed. *)
Theorem StopSync_delivers_every_accepted_record :
  forall (fuel : nat) (p : Process) (calls : list (Call value)),
    closed (Logger.output (logger p)) = false ->
    closed (Logger.stop (logger p)) = false ->
    routine p = Receiving ->
    Forall (fun c => short (logger p) (record_of value withOperands (logger p) c)) calls ->
    exists q r,
      log_all value withOperands fuel p calls = Returned q
      /\ StopSync fuel q = Returned r
      /\ Stdout r
         = (Stdout p
            ++ delivered (logger p) (map (record_of value withOperands (logger p)) calls))%list
      /\ Logger.writers (logger r)
         = map (fun w =>
                  (w ++ delivered (logger p)
                          (map (record_of value withOperands (logger p)) calls))%list)
             (Logger.writers (logger p))
      /\ routine r = Exited
      /\ closed (Logger.output (logger r)) = true
      /\ closed (Logger.stop (logger r)) = true.
Proof.
  intros fuel p calls Hopen Hstop Hr Hshort.
  assert (Hlive : live p) by (split; [exact Hopen | left; exact Hr]).
  destruct (log_all_live value withOperands fuel calls p Hlive Hshort)
    as (q & L & Hq & Hst & Hliveq & HL).
  destruct (logger_of_appended _ _ _ Hst) as [Hl Hout].
  destruct (StopSync_live fuel q Hliveq) as (r & Hr' & Hsr & Hlr & Hrr).
  { rewrite Hl. exact Hstop. }
  exists q, r. split; [exact Hq|]. split; [exact Hr'|].
  assert (Hd : delivered (logger q) (holding q) = delivered (logger p) (holding q))
    by (rewrite Hl; reflexivity).
  unfold holding at 2 in HL. rewrite Hr in HL. cbn [app] in HL.
  split.
  - rewrite Hsr, Hout, Hd, <- app_assoc. now rewrite HL.
  - rewrite Hlr. cbn [Logger.writers Logger.output Logger.stop closed].
    split; [|auto].
    rewrite Hd. rewrite Hl at 1. cbn [Logger.writers Logger.set_writers].
    rewrite map_map. rewrite <- HL. apply map_ext. intros w. now rewrite app_assoc.
Qed.


(** X8.  A writer added with [AddWriter] comes last and receives the lines
    written from then on, after what it held before. *)
Theorem AddWriter_receives_the_later_lines :
  forall (fuel : nat) (p : Process) (w : Sink) (m : LogMsg.t),
    short (logger p) m ->
    exists l',
      printMessage fuel m (logger (AddWriter p w), Stdout (AddWriter p w))
      = Returned (l', (Stdout p ++ delivered (logger p) [m])%list)
      /\ Logger.writers l'
         = (map (fun x => (x ++ delivered (logger p) [m])%list) (Logger.writers (logger p))
            ++ [(w ++ delivered (logger p) [m])%list])%list.
Proof.
  intros fuel p w m Hs.
  rewrite printMessage_short_delivered by exact Hs.
  eexists. split; [reflexivity|].
  cbn [AddWriter logger fst appended Logger.writers Logger.set_writers].
  now rewrite map_app.
Qed.

(** X9.  [SetModuleId] does not touch the record the goroutine already
    holds: that record keeps the id it was logged with, and the next log
    call builds its record with the new id. *)
Theorem SetModuleId_applies_to_later_records :
  forall (fuel : nat) (p : Process) (c1 c2 : Call value) (i : string),
    live p ->
    short (logger p) (record_of value withOperands (logger p) c1) ->
    exists q1 q2 m1 m2,
      log value withOperands fuel p (call_site value c1) (call_level value c1)
        (call_format value c1) (call_values value c1) = Returned q1
      /\ routine (SetModuleId q1 i) = Holding m1
      /\ LogMsg.ModuleId m1 = Logger.id (logger p)
      /\ log value withOperands fuel (SetModuleId q1 i) (call_site value c2)
           (call_level value c2) (call_format value c2) (call_values value c2)
         = Returned q2
      /\ routine q2 = Holding m2
      /\ LogMsg.ModuleId m2 = i
      /\ LogMsg.Module_ m2 = Logger.module (logger p).
Proof.
  intros fuel p c1 c2 i Hlive Hs.
  destruct (log_live value withOperands fuel p c1 Hlive) as (q1 & Hq1 & Hst & Hr1).
  destruct (logger_of_appended _ _ _ Hst) as [Hl _].
  assert (Hlive' : live (SetModuleId q1 i)).
  { destruct Hlive as [Hopen _]. split.
    - cbn [SetModuleId logger]. rewrite Hl. exact Hopen.
    - right. eexists. split; [exact Hr1|]. cbn [SetModuleId logger]. rewrite Hl. exact Hs. }
  destruct (log_live value withOperands fuel (SetModuleId q1 i) c2 Hlive')
    as (q2 & Hq2 & _ & Hr2).
  exists q1, q2. eexists; eexists.
  split; [exact Hq1|]. split; [exact Hr1|]. split; [reflexivity|].
  split; [exact Hq2|]. split; [exact Hr2|].
  cbn [SetModuleId logger record_of LogMsg.ModuleId LogMsg.Module_ Logger.id
       Logger.module Logger.set_id]. rewrite Hl. auto.
Qed.

End Extras.

Lemma no_sep_app (s t : string) : no_sep (s ++ t) = no_sep s && no_sep t.
Proof.
  induction s as [|c s IH]; cbn [append no_sep]; [reflexivity|].
  now rewrite IH, andb_assoc.
Qed.

Lemma last_element_no_sep (s : string) :
  forall cur, no_sep cur = true -> no_sep (filepath.last_element s cur) = true.
Proof.
  induction s as [|c s IH]; intros cur Hcur; cbn [filepath.last_element]; [exact Hcur|].
  destruct (filepath.is_sep c) eqn:E; apply IH; [reflexivity|].
  rewrite no_sep_app, Hcur. cbn [no_sep]. now rewrite E.
Qed.

Lemma no_sep_Index (s : string) : no_sep s = true -> strings.Index s "/" = -1.
Proof.
  induction s as [|c s IH]; [reflexivity|].
  cbn [no_sep]. intros H. apply andb_prop in H. destruct H as [Hc Hs].
  cbn [strings.Index String.prefix]. rewrite (IH Hs).
  unfold filepath.is_sep in Hc.
  destruct (ascii_dec "/" c) as [<-|]; [discriminate | reflexivity].
Qed.

Lemma Base_is_a_name (path : string) :
  filepath.Base path <> EmptyString
  /\ (filepath.Base path = "/" \/ strings.Index (filepath.Base path) "/" = -1).
Proof.
  unfold filepath.Base. destruct path as [|c r]; [split; [discriminate | right; reflexivity]|].
  pose proof (last_element_no_sep (filepath.trim_right_sep (String c r)) EmptyString eq_refl)
    as H.
  destruct (filepath.last_element (filepath.trim_right_sep (String c r)) EmptyString)
    as [|d e]; [split; [discriminate | left; reflexivity]|].
  split; [discriminate | right; now apply no_sep_Index].
Qed.

Section Extras2.
Variable value : Type.
Variable withOperands : string -> list value -> string.

(** X10.  On a live handle [log] returns, and the goroutine holds the
    record built from the call: its level, the formatted message, the
    module and id of the handle and the line of the caller; the source
    file is a base name, never empty and without separator (or the root
    itself). *)
Theorem log_hands_over_the_record :
  forall (fuel : nat) (p : Process) (site : Site) (level : LogLevel)
         (format : string) (values : list value),
    live p ->
    exists q m,
      log value withOperands fuel p site level format values = Returned q
      /\ routine q = Holding m
      /\ LogMsg.Level m = level
      /\ LogMsg.Message m = fmt.Sprintf value withOperands format values
      /\ LogMsg.Module_ m = Logger.module (logger p)
      /\ LogMsg.ModuleId m = Logger.id (logger p)
      /\ LogMsg.SrcLine m = lineNumber site
      /\ LogMsg.SrcFile m <> EmptyString
      /\ (LogMsg.SrcFile m = "/" \/ strings.Index (LogMsg.SrcFile m) "/" = -1).
Proof.
  intros fuel p site level format values Hlive.
  destruct (log_live value withOperands fuel p
              {| call_site := site; call_level := level;
                 call_format := format; call_values := values |} Hlive)
    as (q & Hq & _ & Hr).
  exists q. eexists. split; [exact Hq|]. split; [exact Hr|].
  cbn. repeat split; try reflexivity; apply Base_is_a_name.
Qed.

(** X11.  [InitSingleStr] creates the singleton once: on an initialised
    singleton a further call changes nothing, whatever the environment and
    the module name; on an empty one it stores the handle [Init] makes. *)
Theorem InitSingleStr_first_call_wins :
  forall (env1 env2 : list (string * string)) (g : Package) (module1 module2 : string),
    InitSingleStr env2 (InitSingleStr env1 g module1) module2
    = InitSingleStr env1 g module1
    /\ (singleLogger g = None ->
        singleLogger (InitSingleStr env1 g module1)
        = Some (logger (Init env1 (os_Stdout g) module1), Receiving)).
Proof.
  intros env1 env2 g module1 module2. unfold InitSingleStr.
  destruct (singleLogger g) as [h|] eqn:E.
  - rewrite E. split; [reflexivity | discriminate].
  - cbn [singleLogger]. split; reflexivity.
Qed.

(** X12.  While the singleton is nil, the package-level log calls,
    [StopSingle] and [StopSyncSingle] return without any effect. *)
Theorem uninitialized_singleton_ignores_calls :
  forall (fuel : nat) (g : Package) (site : Site) (level : LogLevel)
         (format : string) (values : list value),
    singleLogger g = None ->
    single_log value withOperands fuel g site level format values = Returned g
    /\ StopSingle g = Returned g
    /\ StopSyncSingle fuel g = Returned g.
Proof.
  intros fuel g site level format values H.
  unfold single_log, StopSingle, StopSyncSingle, reset_single, on_single. rewrite H.
  destruct g as [s o]. cbn in H. subst s. auto.
Qed.

(** X13.  [StopSyncSingle] on a live singleton writes the record its
    goroutine holds, then sets the singleton to nil, so that a later
    [InitSingleStr] creates a new handle. *)
Theorem StopSyncSingle_flushes_and_resets :
  forall (fuel : nat) (g : Package) (l : Logger.t) (r : Routine),
    singleLogger g = Some (l, r) ->
    live {| logger := l; routine := r; Stdout := os_Stdout g |} ->
    closed (Logger.stop l) = false ->
    exists g',
      StopSyncSingle fuel g = Returned g'
      /\ singleLogger g' = None
      /\ os_Stdout g'
         = (os_Stdout g
            ++ delivered l (holding {| logger := l; routine := r; Stdout := os_Stdout g |}))%list
      /\ forall env module,
          singleLogger (InitSingleStr env g' module)
          = Some (logger (Init env (os_Stdout g') module), Receiving).
Proof.
  intros fuel g l r Hs Hlive Hstop.
  destruct (StopSync_live fuel _ Hlive Hstop) as (p' & Hp' & Hout & _ & _).
  unfold StopSyncSingle, on_single, reset_single. rewrite Hs, Hp'.
  eexists. split; [reflexivity|]. cbn [singleLogger os_Stdout].
  split; [reflexivity|]. split; [exact Hout|]. reflexivity.
Qed.

End Extras2.

(** X14.  The name [MarshalJSON] writes tells the levels apart: each of
    the four names stands for its level only, and a level outside the four
    is written as LEVEL followed by its number. *)
Theorem LevelName_tells_the_levels_apart :
  forall (l : LogLevel),
    (LevelName l = "DEBUG" <-> l = DebugLevel)
    /\ (LevelName l = "INFO" <-> l = InfoLevel)
    /\ (LevelName l = "WARNING" <-> l = WarningLevel)
    /\ (LevelName l = "ERROR" <-> l = ErrorLevel)
    /\ (l < DebugLevel \/ ErrorLevel < l -> LevelName l = "LEVEL" ++ strconv.Itoa l).
Proof.
  intros l. unfold LevelName, DebugLevel, InfoLevel, WarningLevel, ErrorLevel.
  destruct (Z.eqb_spec l 0) as [->|H0]; [repeat split; intros; (reflexivity || discriminate || lia)|].
  destruct (Z.eqb_spec l 1) as [->|H1]; [repeat split; intros; (reflexivity || discriminate || lia)|].
  destruct (Z.eqb_spec l 2) as [->|H2]; [repeat split; intros; (reflexivity || discriminate || lia)|].
  destruct (Z.eqb_spec l 3) as [->|H3]; [repeat split; intros; (reflexivity || discriminate || lia)|].
  cbn [append].
  repeat split; intros; try reflexivity; try discriminate; try contradiction.
Qed.

(** X15.  Whatever the environment, [Init] returns a handle with one of the
    four levels and a threshold that is not 0, with the given module name,
    no id and no writers, both channels open and the goroutine waiting. *)
Theorem Init_starts_a_live_handle :
  forall (env : list (string * string)) (stdout : Sink) (module : string),
    let p := Init env stdout module in
    DebugLevel <= Logger.Level (logger p) <= ErrorLevel
    /\ Logger.msgLen (logger p) <> 0
    /\ Logger.module (logger p) = module
    /\ Logger.id (logger p) = EmptyString
    /\ Logger.writers (logger p) = []
    /\ closed (Logger.output (logger p)) = false
    /\ closed (Logger.stop (logger p)) = false
    /\ routine p = Receiving
    /\ Stdout p = stdout.
Proof.
  intros env stdout module p. subst p. unfold Init.
  cbn [logger routine Stdout Logger.Level Logger.msgLen Logger.module Logger.id
       Logger.writers Logger.output Logger.stop].
  split.
  { unfold DebugLevel, ErrorLevel, WarningLevel, InfoLevel.
    repeat match goal with |- context [if ?c then _ else _] => destruct c end; lia. }
  split.
  { destruct (Z.eqb_spec (fst (strconv.Atoi (Getenv env "LOG_MSG_LEN"))) 0);
      [unfold MaxMsgLength; lia | assumption]. }
  repeat split.
Qed.


(** X17.  A negative LOG_MSG_LEN is taken as the threshold, and then
    every record that passes the level filter panics in [printMessage], on
    the slice bound of its first cut. *)
Theorem negative_threshold_panics_on_every_record :
  forall (env : list (string * string)) (stdout out : Sink) (module : string)
         (fuel : nat) (msg : LogMsg.t),
    fst (strconv.Atoi (Getenv env "LOG_MSG_LEN")) < 0 ->
    Logger.Level (logger (Init env stdout module)) <= LogMsg.Level msg ->
    Logger.msgLen (logger (Init env stdout module))
    = fst (strconv.Atoi (Getenv env "LOG_MSG_LEN"))
    /\ printMessage (S fuel) msg (logger (Init env stdout module), out)
       = Panicked SliceBounds.
Proof.
  intros env stdout out module fuel msg Hneg Hlevel.
  assert (E : Logger.msgLen (logger (Init env stdout module))
              = fst (strconv.Atoi (Getenv env "LOG_MSG_LEN"))).
  { unfold Init. cbn [logger Logger.msgLen].
    destruct (Z.eqb_spec (fst (strconv.Atoi (Getenv env "LOG_MSG_LEN"))) 0); [lia|].
    reflexivity. }
  split; [exact E|].
  unfold printMessage. cbn [fst].
  destruct (Z.ltb_spec (LogMsg.Level msg) (Logger.Level (logger (Init env stdout module))));
    [lia|].
  cbn [splitLoop fst]. pose proof (len_nonneg (LogMsg.Message msg)).
  destruct (Z.gtb_spec (len (LogMsg.Message msg))
              (Logger.msgLen (logger (Init env stdout module)))); [|lia].
  rewrite splitBody_negative by (cbn [fst]; lia). reflexivity.
Qed.

(** ** The writer adapters, end to end *)

(** X18.  A buffer of valid UTF-8 without percent sign, not longer than
    the threshold, written to an adapter whose level passes the filter of a
    fresh handle: [Write] returns the length and nil, and after [StopSync]
    standard output and every writer hold one more line, whose message
    field decodes to the text of the buffer. *)
Theorem Write_then_StopSync_prints_the_buffer :
  forall (value : Type) (withOperands : string -> list value -> string)
         (fuel : nat) (p : Process) (site : Site) (writer : LogWriter)
         (buf : list ascii),
    closed (Logger.output (logger p)) = false ->
    closed (Logger.stop (logger p)) = false ->
    routine p = Receiving ->
    strings.Index (string_of_list_ascii buf) "%" = -1 ->
    utf8.ValidString (string_of_list_ascii buf) = true ->
    len (string_of_list_ascii buf) <= Logger.msgLen (logger p) ->
    Logger.Level (logger p) <= level writer ->
    exists q r line,
      Write value withOperands fuel p site writer buf
      = Returned (q, (Z.of_nat (List.length buf), None))
      /\ StopSync fuel q = Returned r
      /\ Stdout r = (Stdout p ++ [line])%list
      /\ Logger.writers (logger r)
         = map (fun w => (w ++ [line])%list) (Logger.writers (logger p))
      /\ message_fields [line] = [Some (string_of_list_ascii buf)].
Proof.
  intros value withOperands fuel p site writer buf Hopen Hstop Hr Hpct Hvalid Hlen Hlevel.
  assert (Hlive : live p) by (split; [exact Hopen | left; exact Hr]).
  set (c := {| call_site := site; call_level := level writer;
               call_format := string_of_list_ascii buf; call_values := @nil value |}).
  destruct (log_live value withOperands fuel p c Hlive) as (q & Hq & Hst & Hrq).
  destruct (logger_of_appended _ _ _ Hst) as [Hl Hout].
  unfold holding in Hl, Hout. rewrite Hr in Hl, Hout.
  assert (Hmsg : LogMsg.Message (record_of value withOperands (logger p) c)
                 = string_of_list_ascii buf).
  { cbn [record_of LogMsg.Message c call_format call_values fmt.Sprintf].
    now apply directive_free. }
  assert (Hliveq : live q).
  { split; [rewrite Hl; exact Hopen|]. right. eexists. split; [exact Hrq|].
    unfold short. rewrite Hmsg, Hl. exact Hlen. }
  destruct (StopSync_live fuel q Hliveq) as (r & Hsr & Hso & Hlr & _).
  { rewrite Hl. exact Hstop. }
  assert (Hd : delivered (logger q) (holding q)
               = [line_of (record_of value withOperands (logger p) c)]).
  { unfold holding. rewrite Hrq. unfold delivered, passes. cbn [filter].
    rewrite Hl.
    replace (LogMsg.Level (record_of value withOperands (logger p) c)
             <? Logger.Level
                  (Logger.set_writers (logger p)
                     (map (fun w => (w ++ delivered (logger p) [])%list)
                        (Logger.writers (logger p)))))
      with false by (symmetry; apply Z.ltb_ge; exact Hlevel).
    reflexivity. }
  exists q, r, (line_of (record_of value withOperands (logger p) c)).
  split.
  { unfold Write. fold c.
    change (log value withOperands fuel p site (level writer)
              (string_of_list_ascii buf) [])
      with (log value withOperands fuel p (call_site value c) (call_level value c)
              (call_format value c) (call_values value c)).
    rewrite Hq. reflexivity. }
  split; [exact Hsr|]. split.
  { rewrite Hso, Hd, Hout. cbn [delivered filter map]. now rewrite app_nil_r. }
  split.
  { rewrite Hlr, Hd. cbn [Logger.writers]. rewrite Hl.
    cbn [Logger.writers Logger.set_writers delivered filter map].
    rewrite map_map. apply map_ext. intros w. now rewrite app_nil_r. }
  unfold line_of. rewrite message_fields_line, Hmsg. now rewrite coerce_ValidString.
Qed.

(** ** Instances *)

Lemma printMessage_fans_out_the_same_lines_witness :
  exists parts,
    let lines :=
      map (fun part => line_of (LogMsg.set_Message (sample_msg InfoLevel "short") part))
        parts in
    snd (write_line (line_of (sample_msg InfoLevel "short")) (sample_logger, []))
    = ([] ++ lines)%list
    /\ Logger.writers
         (fst (write_line (line_of (sample_msg InfoLevel "short")) (sample_logger, [])))
       = map (fun w => (w ++ lines)%list) (Logger.writers sample_logger)
    /\ fst (write_line (line_of (sample_msg InfoLevel "short")) (sample_logger, []))
       = Logger.set_writers sample_logger
           (Logger.writers
              (fst (write_line (line_of (sample_msg InfoLevel "short"))
                      (sample_logger, [])))).
Proof.
  apply (printMessage_fans_out_the_same_lines 1 (sample_msg InfoLevel "short")
           sample_logger []).
  left. vm_compute. reflexivity.
Defined.

Lemma splitBody_cuts_at_newline_or_threshold_witness :
  exists part rest,
    splitBody (sample_msg InfoLevel ("ab" ++ newline ++ "cd" ++ newline ++ "efghijklmnop"))
      (sample_logger, [])
    = Ok (sample_msg InfoLevel ("ab" ++ newline ++ "cd" ++ newline ++ "efghijklmnop"),
          write_line
            (Marshal
               (LogMsg.set_Message
                  (sample_msg InfoLevel
                     ("ab" ++ newline ++ "cd" ++ newline ++ "efghijklmnop")) part)
               ++ newline) (sample_logger, []))
    /\ len part <= 10
    /\ (("ab" ++ newline ++ "cd" ++ newline ++ "efghijklmnop" = part ++ rest
         /\ len part = 10
         /\ forall j, j <= 10 ->
                      ~ newline_at ("ab" ++ newline ++ "cd" ++ newline ++ "efghijklmnop") j)
        \/ ("ab" ++ newline ++ "cd" ++ newline ++ "efghijklmnop" = part ++ newline ++ rest
            /\ forall j, len part < j <= 10 ->
                         ~ newline_at
                             ("ab" ++ newline ++ "cd" ++ newline ++ "efghijklmnop") j)).
Proof.
  apply (splitBody_cuts_at_newline_or_threshold
           (sample_msg InfoLevel ("ab" ++ newline ++ "cd" ++ newline ++ "efghijklmnop"))
           (sample_logger, [])).
  vm_compute. split; [discriminate | reflexivity].
Defined.

Lemma StopSync_delivers_every_accepted_record_witness :
  exists q r,
    log_all unit (fun f _ => f) 1 default_process sample_calls = Returned q
    /\ StopSync 1 q = Returned r
    /\ Stdout r = [line_of (sample_msg ErrorLevel "y")]
    /\ routine r = Exited.
Proof.
  destruct (StopSync_delivers_every_accepted_record unit (fun f _ => f) 1
              default_process sample_calls)
    as (q & r & H1 & H2 & H3 & _ & H5 & _).
  - reflexivity.
  - reflexivity.
  - reflexivity.
  - repeat constructor; vm_compute; discriminate.
  - exists q, r. repeat split; assumption.
Defined.


Lemma AddWriter_receives_the_later_lines_witness :
  exists l',
    printMessage 1 (sample_msg InfoLevel "short")
      (logger (AddWriter default_process ["earlier"]),
       Stdout (AddWriter default_process ["earlier"]))
    = Returned (l', [line_of (sample_msg InfoLevel "short")])
    /\ Logger.writers l' = [["earlier"; line_of (sample_msg InfoLevel "short")]].
Proof.
  apply (AddWriter_receives_the_later_lines 1 default_process ["earlier"]
           (sample_msg InfoLevel "short")).
  vm_compute. discriminate.
Defined.

Lemma SetModuleId_applies_to_later_records_witness :
  exists q1 q2 m1 m2,
    log unit (fun f _ => f) 1 default_process sample_site InfoLevel "one" [] = Returned q1
    /\ routine (SetModuleId q1 "node-7") = Holding m1
    /\ LogMsg.ModuleId m1 = EmptyString
    /\ log unit (fun f _ => f) 1 (SetModuleId q1 "node-7") sample_site InfoLevel "two" []
       = Returned q2
    /\ routine q2 = Holding m2
    /\ LogMsg.ModuleId m2 = "node-7"
    /\ LogMsg.Module_ m2 = "svc".
Proof.
  apply (SetModuleId_applies_to_later_records unit (fun f _ => f) 1 default_process
           {| call_site := sample_site; call_level := InfoLevel;
              call_format := "one"; call_values := [] |}
           {| call_site := sample_site; call_level := InfoLevel;
              call_format := "two"; call_values := [] |} "node-7").
  - split; [reflexivity | left; reflexivity].
  - vm_compute. discriminate.
Defined.

Lemma log_hands_over_the_record_witness :
  exists q m,
    log unit (fun f _ => f) 1 default_process sample_site WarningLevel "disk at 91" []
    = Returned q
    /\ routine q = Holding m
    /\ LogMsg.Level m = WarningLevel
    /\ LogMsg.Message m = "disk at 91"
    /\ LogMsg.Module_ m = "svc"
    /\ LogMsg.ModuleId m = EmptyString
    /\ LogMsg.SrcLine m = 42
    /\ LogMsg.SrcFile m <> EmptyString
    /\ (LogMsg.SrcFile m = "/" \/ strings.Index (LogMsg.SrcFile m) "/" = -1).
Proof.
  apply (log_hands_over_the_record unit (fun f _ => f) 1 default_process sample_site
           WarningLevel "disk at 91" []).
  split; [reflexivity | left; reflexivity].
Defined.

Lemma uninitialized_singleton_ignores_calls_witness :
  single_log unit (fun f _ => f) 1 {| singleLogger := None; os_Stdout := [] |}
    sample_site InfoLevel "x" []
  = Returned {| singleLogger := None; os_Stdout := [] |}
  /\ StopSingle {| singleLogger := None; os_Stdout := [] |}
     = Returned {| singleLogger := None; os_Stdout := [] |}
  /\ StopSyncSingle 1 {| singleLogger := None; os_Stdout := [] |}
     = Returned {| singleLogger := None; os_Stdout := [] |}.
Proof.
  apply (uninitialized_singleton_ignores_calls unit (fun f _ => f) 1
           {| singleLogger := None; os_Stdout := [] |} sample_site InfoLevel "x" []).
  reflexivity.
Defined.

Lemma StopSyncSingle_flushes_and_resets_witness :
  exists g',
    StopSyncSingle 1
      {| singleLogger := Some (logger default_process,
                               Holding (sample_msg InfoLevel "last"));
         os_Stdout := [] |} = Returned g'
    /\ singleLogger g' = None
    /\ os_Stdout g' = [line_of (sample_msg InfoLevel "last")].
Proof.
  destruct (StopSyncSingle_flushes_and_resets 1
              {| singleLogger := Some (logger default_process,
                                       Holding (sample_msg InfoLevel "last"));
                 os_Stdout := [] |}
              (logger default_process) (Holding (sample_msg InfoLevel "last")))
    as (g' & H1 & H2 & H3 & _).
  - reflexivity.
  - split; [reflexivity|]. right. eexists. split; [reflexivity|].
    vm_compute. discriminate.
  - reflexivity.
  - exists g'. repeat split; assumption.
Defined.


Lemma negative_threshold_panics_on_every_record_witness :
  Logger.msgLen (logger (Init [("LOG_MSG_LEN", "-5")] [] "svc")) = -5
  /\ printMessage 1 (sample_msg InfoLevel "x")
       (logger (Init [("LOG_MSG_LEN", "-5")] [] "svc"), [])
     = Panicked SliceBounds.
Proof.
  apply (negative_threshold_panics_on_every_record [("LOG_MSG_LEN", "-5")] [] []
           "svc" 0 (sample_msg InfoLevel "x")).
  - vm_compute. reflexivity.
  - vm_compute. discriminate.
Defined.

Lemma Write_then_StopSync_prints_the_buffer_witness :
  exists q r line,
    Write unit (fun f _ => f) 1 default_process sample_site WarningWriter
      (list_ascii_of_string "disk full")
    = Returned (q, (9, None))
    /\ StopSync 1 q = Returned r
    /\ Stdout r = [line]
    /\ message_fields [line] = [Some "disk full"].
Proof.
  destruct (Write_then_StopSync_prints_the_buffer unit (fun f _ => f) 1 default_process
              sample_site WarningWriter (list_ascii_of_string "disk full"))
    as (q & r & line & H1 & H2 & H3 & _ & H5).
  - reflexivity.
  - reflexivity.
  - reflexivity.
  - vm_compute. reflexivity.
  - vm_compute. reflexivity.
  - vm_compute. discriminate.
  - vm_compute. discriminate.
  - exists q, r, line. repeat split; assumption.
Defined.
